(** * gpt_review._git: locating the repository and committing with a generated message

    A shallow embedding of [src/gpt_review/_git.py].  The module is a thin
    pipeline over three collaborators: the file system ([os.path]), GitPython
    ([Repo.init], [repo.git.diff], [repo.git.commit], [repo.git.push]) and the
    completion facility ([_request_goal]).  The path functions of [os.path] are
    embedded from CPython's [posixpath]; the other collaborators are oracles
    of a [World], and every call to them is recorded in a history of events. *)

From Stdlib Require Import String Ascii List Bool Arith Lia.
From stdpp Require Import gmap strings.
Import ListNotations.

Local Open Scope string_scope.
Local Open Scope list_scope.

(** ** [posixpath]: the path functions the module calls *)

Module posixpath.

Definition sep : string := "/".
Definition curdir : string := ".".
Definition pardir : string := "..".

(** [s.startswith(p)] *)
Fixpoint startswith (s p : string) {struct p} : bool :=
  match p with
  | EmptyString => true
  | String a p' =>
      match s with
      | EmptyString => false
      | String b s' => Ascii.eqb a b && startswith s' p'
      end
  end.

Definition isabs (s : string) : bool := startswith s sep.

(** [s.endswith(sep)] *)
Fixpoint endswith_sep (s : string) : bool :=
  match s with
  | EmptyString => false
  | String c EmptyString => Ascii.eqb c "/"
  | String _ s' => endswith_sep s'
  end.

(** [join(a, b)], the two-argument form: an absolute [b] replaces [a]; a
    separator is inserted unless [a] is empty or already ends in one. *)
Definition join (a b : string) : string :=
  if startswith b sep then b
  else if String.eqb a "" || endswith_sep a then a +:+ b
  else a +:+ sep +:+ b.

(** [s.split(sep)]: never empty, [split "" = [""]]. *)
Fixpoint split (s : string) : list string :=
  match s with
  | EmptyString => [EmptyString]
  | String c s' =>
      if Ascii.eqb c "/" then EmptyString :: split s'
      else match split s' with
           | [] => [String c EmptyString]
           | w :: ws => String c w :: ws
           end
  end.

(** [sep.join(comps)] *)
Fixpoint sep_join (comps : list string) : string :=
  match comps with
  | [] => ""
  | [c] => c
  | c :: cs => c +:+ sep +:+ sep_join cs
  end.

(** [initial_slashes] of [normpath]: 0, 1, or 2 when the path starts with
    exactly two separators. *)
Definition initial_slashes (path : string) : nat :=
  if startswith path sep then
    if startswith path "//" && negb (startswith path "///") then 2
    else 1
  else 0.

Definition is_nil (l : list string) : bool :=
  match l with [] => true | _ => false end.

(** One iteration of the loop of [normpath] over the components;
    [new_comps] grows at its end and is popped at its end. *)
Definition norm_step (slashes : nat) (new_comps : list string) (comp : string)
  : list string :=
  if String.eqb comp "" || String.eqb comp curdir then new_comps
  else if negb (String.eqb comp pardir)
          || (Nat.eqb slashes 0 && is_nil new_comps)
          || (negb (is_nil new_comps)
              && String.eqb (List.last new_comps "") pardir)
       then new_comps ++ [comp]
       else if negb (is_nil new_comps) then List.removelast new_comps
            else new_comps.

Fixpoint sep_times (n : nat) : string :=
  match n with
  | O => ""
  | S n' => sep +:+ sep_times n'
  end.

Definition normpath (path : string) : string :=
  if String.eqb path "" then curdir
  else
    let slashes := initial_slashes path in
    let comps := List.fold_left (norm_step slashes) (split path) [] in
    let path := sep_join comps in
    let path := if Nat.eqb slashes 0 then path else sep_times slashes +:+ path in
    if String.eqb path "" then curdir else path.

(** [abspath(path)], with [cwd] the value of [os.getcwd()]. *)
Definition abspath (cwd path : string) : string :=
  normpath (if isabs path then path else join cwd path).

End posixpath.

(** ** Outcomes, events and the world *)

(** Exceptions the module can raise or pass through.  [FileNotFoundError] is
    the one it raises itself; [CollaboratorError] stands for any exception
    raised by GitPython or by the completion facility, with its class name
    and message. *)
Inductive exn : Type :=
| FileNotFoundError (msg : string)
| CollaboratorError (name msg : string).

(** The outcome of running a function of the module with a bound on the
    number of iterations of the loop of [_find_git_dir]. *)
Inductive outcome (A : Type) : Type :=
| Returns (a : A)
| Raises (e : exn)
| OutOfFuel.
Arguments Returns {A} a.
Arguments Raises {A} e.
Arguments OutOfFuel {A}.

(** The calls the module makes to its collaborators, in call order. *)
Inductive event : Type :=
| LogDebug (fmt : string) (args : list string)
| RepoInit (path : string)
| GitDiff (repo : string)
| RequestGoal (content goal : string) (fast large : bool)
| GitCommit (repo message : string)
| GitPush (repo : string).

Definition history : Type := list event.

(** The environment of one run.  The directory tree and the working
    directory are fixed during the run; GitPython and the completion facility
    answer as a function of the calls made so far and of their arguments:
    [inl e] when the call raises [e], [inr s] when it returns [s]. *)
Record World : Type := {
  getcwd : string;
  path_exists : string -> bool;
  repo_init : history -> string -> option exn;
  git_diff : history -> string -> exn + string;
  request_goal : history -> string -> string -> bool -> bool -> exn + string;
  git_commit : history -> string -> string -> exn + string;
  git_push : history -> string -> exn + string }.

(** A computation reads the history of the calls made before it and yields
    its outcome together with the calls it made itself. *)
Definition M (A : Type) : Type := history -> outcome A * list event.

Definition ret {A} (a : A) : M A := fun _ => (Returns a, []).

Definition bind {A B} (m : M A) (k : A -> M B) : M B :=
  fun h =>
    match m h with
    | (Returns a, evs) =>
        let (r, evs') := k a (h ++ evs) in (r, evs ++ evs')
    | (Raises e, evs) => (Raises e, evs)
    | (OutOfFuel, evs) => (OutOfFuel, evs)
    end.

Notation "x <- m ;; k" := (bind m (fun x => k))
  (at level 100, m at next level, right associativity).

Definition pure_outcome {A} (o : outcome A) : M A := fun _ => (o, []).

Definition of_sum {A} (r : exn + A) : outcome A :=
  match r with
  | inl e => Raises e
  | inr a => Returns a
  end.

Definition nl : string := String "010"%char EmptyString.

Section Program.

Variable w : World.

(** *** Calls to the collaborators *)

Definition logging_debug (fmt : string) (args : list string) : M unit :=
  fun _ => (Returns tt, [LogDebug fmt args]).

Definition Repo_init (path : string) : M string :=
  fun h =>
    (match repo_init w h path with
     | Some e => Raises e
     | None => Returns path
     end, [RepoInit path]).

Definition repo_git_diff (repo : string) : M string :=
  fun h => (of_sum (git_diff w h repo), [GitDiff repo]).

Definition _request_goal (content goal : string) (fast large : bool) : M string :=
  fun h => (of_sum (request_goal w h content goal fast large),
            [RequestGoal content goal fast large]).

Definition repo_git_commit (repo message : string) : M string :=
  fun h => (of_sum (git_commit w h repo message), [GitCommit repo message]).

Definition repo_git_push (repo : string) : M string :=
  fun h => (of_sum (git_push w h repo), [GitPush repo]).

(** *** The functions of [_git.py] *)

(** [_find_git_dir(path)]: one unit of fuel per evaluation of the loop
    condition. *)
Fixpoint _find_git_dir (fuel : nat) (path : string) : outcome string :=
  match fuel with
  | O => OutOfFuel
  | S fuel' =>
      if negb (String.eqb path "/") then
        if path_exists w (posixpath.join path ".git") then Returns path
        else _find_git_dir fuel'
               (posixpath.abspath (getcwd w) (posixpath.join path posixpath.pardir))
      else Raises (FileNotFoundError ".git directory not found")
  end.

Definition _diff (fuel : nat) : M string :=
  dir <- pure_outcome (_find_git_dir fuel ".") ;;
  repo <- Repo_init dir ;;
  repo_git_diff repo.

Definition goal : string :=
  nl +:+ "Create a short, single-line, git commit message for these changes" +:+ nl.

Definition _commit_message (fuel : nat) (gpt4 large : bool) : M string :=
  diff <- _diff fuel ;;
  _ <- logging_debug "Diff: %s" [diff] ;;
  _request_goal diff goal (negb gpt4) large.

Definition _push (fuel : nat) : M string :=
  _ <- logging_debug "Pushing commit to remote." [] ;;
  dir <- pure_outcome (_find_git_dir fuel ".") ;;
  repo <- Repo_init dir ;;
  repo_git_push repo.

Definition _commit (fuel : nat) (gpt4 large push : bool) : M (gmap string string) :=
  message <- _commit_message fuel gpt4 large ;;
  _ <- logging_debug "Commit Message: %s" [message] ;;
  dir <- pure_outcome (_find_git_dir fuel ".") ;;
  repo <- Repo_init dir ;;
  commit <- repo_git_commit repo message ;;
  commit <- (if push
             then pushed <- _push fuel ;; ret (commit +:+ nl +:+ pushed)
             else ret commit) ;;
  ret ({[ "response" := commit ]} : gmap string string).

End Program.

Arguments _find_git_dir w fuel path : simpl nomatch.

(** ** Sample worlds *)

Definition sample_diff : string := "diff --git a/f b/f" +:+ nl +:+ "+line" +:+ nl.

(** A world given by its working directory, the paths that exist, the staged
    diff and the answer of [git push]; every other call succeeds. *)
Definition sample_world (cwd : string) (present : list string) (diff : string)
  (push : exn + string) : World :=
  {| getcwd := cwd;
     path_exists := fun p => existsb (String.eqb p) present;
     repo_init := fun _ _ => None;
     git_diff := fun _ _ => inr diff;
     request_goal := fun _ _ _ _ _ => inr "Add line";
     git_commit := fun _ _ message => inr ("[main 1a2b3c4] " +:+ message);
     git_push := fun _ _ => push |}.

Definition w_repo : World :=
  sample_world "/home/u/proj" ["./.git"; "/home/u/proj/.git"; "/home/.git"]
    sample_diff (inr "To origin").

Definition w_empty_diff : World :=
  sample_world "/home/u/proj" ["./.git"; "/home/u/proj/.git"] "" (inr "To origin").

Definition w_push_fails : World :=
  sample_world "/home/u/proj" ["./.git"; "/home/u/proj/.git"] sample_diff
    (inl (CollaboratorError "GitCommandError" "remote rejected")).

Definition w_no_repo : World :=
  sample_world "/tmp/x" [] sample_diff (inr "To origin").

Definition w_root_repo : World :=
  sample_world "/srv" ["/.git"] sample_diff (inr "To origin").


(** The walk of [_find_git_dir]: the directory examined after [k] moves to
    the parent, and whether a directory holds the metadata directory. *)
Definition parent (w : World) (path : string) : string :=
  posixpath.abspath (getcwd w) (posixpath.join path posixpath.pardir).

Definition ancestor (w : World) (k : nat) (path : string) : string :=
  Nat.iter k (parent w) path.

Definition contains_git (w : World) (dir : string) : bool :=
  path_exists w (posixpath.join dir ".git").

Definition not_found : exn := FileNotFoundError ".git directory not found".

(** [path] starts with exactly two separators. *)
Definition double_slash (path : string) : bool :=
  posixpath.startswith path "//" && negb (posixpath.startswith path "///").

(** A component free of separators, and a component [normpath] keeps as it
    is: free of separators and none of [""], ["."], [".."]. *)
Fixpoint no_sep (s : string) : bool :=
  match s with
  | EmptyString => true
  | String c s' => negb (Ascii.eqb c "/") && no_sep s'
  end.

Definition clean (c : string) : bool :=
  no_sep c && negb (String.eqb c "") && negb (String.eqb c posixpath.curdir)
  && negb (String.eqb c posixpath.pardir).

(** The absolute path with one leading separator and components [cs]. *)
Definition rooted (cs : list string) : string :=
  posixpath.sep +:+ posixpath.sep_join cs.

(** The calls of a complete run of [_commit] up to the commit operation, and
    the calls of a complete run of [_push], on the repository at [dir]. *)
Definition commit_calls (dir diff message : string) (gpt4 large : bool)
  : list event :=
  [RepoInit dir; GitDiff dir; LogDebug "Diff: %s" [diff];
   RequestGoal diff goal (negb gpt4) large;
   LogDebug "Commit Message: %s" [message];
   RepoInit dir; GitCommit dir message].

Definition push_calls (dir : string) : list event :=
  [LogDebug "Pushing commit to remote." []; RepoInit dir; GitPush dir].

(** Calls that change the repository or its remote. *)
Definition is_write (ev : event) : bool :=
  match ev with
  | GitCommit _ _ | GitPush _ => true
  | _ => false
  end.

Definition is_push (ev : event) : bool :=
  match ev with
  | GitPush _ => true
  | _ => false
  end.

(** Worlds in which the completion request, or the commit operation,
    raises. *)
Definition w_request_fails : World :=
  {| getcwd := "/home/u/proj";
     path_exists := fun p => existsb (String.eqb p) ["./.git"];
     repo_init := fun _ _ => None;
     git_diff := fun _ _ => inr sample_diff;
     request_goal := fun _ _ _ _ _ =>
       inl (CollaboratorError "RateLimitError" "too many requests");
     git_commit := fun _ _ message => inr ("[main 1a2b3c4] " +:+ message);
     git_push := fun _ _ => inr "To origin" |}.

Definition w_commit_fails : World :=
  {| getcwd := "/home/u/proj";
     path_exists := fun p => existsb (String.eqb p) ["./.git"];
     repo_init := fun _ _ => None;
     git_diff := fun _ _ => inr "";
     request_goal := fun _ _ _ _ _ => inr "Update";
     git_commit := fun _ _ _ =>
       inl (CollaboratorError "GitCommandError" "nothing to commit");
     git_push := fun _ _ => inr "To origin" |}.

(** ** Checks on concrete inputs *)

Example normpath_ex1 : posixpath.normpath "//.." = "//".
Proof. reflexivity. Qed.
Example normpath_ex2 : posixpath.normpath "/a/./b/" = "/a/b".
Proof. reflexivity. Qed.
Example normpath_ex3 : posixpath.normpath "a//b/../.." = ".".
Proof. reflexivity. Qed.
Example normpath_ex4 : posixpath.normpath "///a/.." = "/".
Proof. reflexivity. Qed.
Example normpath_ex5 : posixpath.normpath "./.." = "..".
Proof. reflexivity. Qed.
Example join_ex1 : posixpath.join "//" ".." = "//..".
Proof. reflexivity. Qed.
Example join_ex2 : posixpath.join "" ".git" = ".git".
Proof. reflexivity. Qed.
Example join_ex3 : posixpath.join "/a/b" ".." = "/a/b/..".
Proof. reflexivity. Qed.
Example find_ex1 : _find_git_dir w_repo 5 "." = Returns ".".
Proof. reflexivity. Qed.
Example find_ex2 : _find_git_dir w_repo 5 "/home/u/proj/src/x" = Returns "/home/u/proj".
Proof. reflexivity. Qed.
Example find_ex3 : _find_git_dir w_no_repo 5 "." = Raises (FileNotFoundError ".git directory not found").
Proof. reflexivity. Qed.
Example find_ex4 : _find_git_dir w_no_repo 2 "." = OutOfFuel.
Proof. reflexivity. Qed.
Example parent_ex1 : parent w_no_repo "//srv/app" = "//srv".
Proof. reflexivity. Qed.
Example parent_ex2 : parent w_no_repo "//srv" = "//".
Proof. reflexivity. Qed.
Example parent_ex3 : parent w_no_repo "///srv" = "/".
Proof. reflexivity. Qed.
Example find_ex5 : _find_git_dir w_no_repo 50 "//srv/app" = OutOfFuel.
Proof. reflexivity. Qed.
Example find_ex6 : _find_git_dir w_root_repo 50 "." = Raises not_found.
Proof. reflexivity. Qed.
Example commit_ex1 :
  _commit w_repo 5 false false true [] =
  (Returns {[ "response" := "[main 1a2b3c4] Add line" +:+ nl +:+ "To origin" ]},
   [RepoInit "."; GitDiff "."; LogDebug "Diff: %s" [sample_diff];
    RequestGoal sample_diff goal true false;
    LogDebug "Commit Message: %s" ["Add line"];
    RepoInit "."; GitCommit "." "Add line";
    LogDebug "Pushing commit to remote." []; RepoInit "."; GitPush "."]).
Proof. reflexivity. Qed.

(** ** The walk of [_find_git_dir] *)

Section Walk.

Variable w : World.

Lemma find_git_dir_unfold (fuel : nat) (path : string) :
  _find_git_dir w (S fuel) path =
  if negb (String.eqb path "/") then
    if contains_git w path then Returns path
    else _find_git_dir w fuel (parent w path)
  else Raises not_found.
Proof. reflexivity. Qed.

Lemma ancestor_S (k : nat) (path : string) :
  ancestor w (S k) path = ancestor w k (parent w path).
Proof.
  unfold ancestor. induction k as [|k IH]; [reflexivity|].
  change (Nat.iter (S (S k)) (parent w) path)
    with (parent w (Nat.iter (S k) (parent w) path)).
  rewrite IH. reflexivity.
Qed.

(** The only exception [_find_git_dir] raises is its own. *)
Lemma find_git_dir_raises (fuel : nat) (path : string) (e : exn) :
  _find_git_dir w fuel path = Raises e -> e = not_found.
Proof.
  revert path. induction fuel as [|fuel IH]; intros path H; [discriminate|].
  rewrite find_git_dir_unfold in H.
  destruct (negb (String.eqb path "/")).
  - destruct (contains_git w path); [discriminate|]. eauto.
  - now inversion H.
Qed.

(** What it returns holds the metadata directory and is not the root. *)
Lemma find_git_dir_returns (fuel : nat) (path dir : string) :
  _find_git_dir w fuel path = Returns dir ->
  contains_git w dir = true /\ dir <> "/".
Proof.
  revert path. induction fuel as [|fuel IH]; intros path H; [discriminate|].
  rewrite find_git_dir_unfold in H.
  destruct (String.eqb_spec path "/") as [Heq|Hne]; cbn [negb] in H; [discriminate|].
  destruct (contains_git w path) eqn:Hg; [|eauto].
  inversion H; subst. auto.
Qed.

(** More fuel does not change a result already reached. *)
Lemma find_git_dir_fuel_mono (fuel fuel' : nat) (path : string) :
  fuel <= fuel' ->
  _find_git_dir w fuel path <> OutOfFuel ->
  _find_git_dir w fuel' path = _find_git_dir w fuel path.
Proof.
  revert fuel' path. induction fuel as [|fuel IH]; intros fuel' path Hle H.
  - now contradiction H.
  - destruct fuel' as [|fuel']; [lia|].
    rewrite !find_git_dir_unfold in *.
    destruct (negb (String.eqb path "/")); [|reflexivity].
    destruct (contains_git w path); [reflexivity|].
    apply IH; [lia|assumption].
Qed.

(** The walk finds the nearest directory with the metadata directory among
    those it examines before the root. *)
Lemma find_git_dir_nearest (k fuel : nat) (path : string) :
  (forall i, i < k ->
     ancestor w i path <> "/" /\ contains_git w (ancestor w i path) = false) ->
  ancestor w k path <> "/" ->
  contains_git w (ancestor w k path) = true ->
  k < fuel ->
  _find_git_dir w fuel path = Returns (ancestor w k path).
Proof.
  revert fuel path. induction k as [|k IH]; intros fuel path Hbefore Hne Hg Hlt;
    (destruct fuel as [|fuel]; [lia|]); rewrite find_git_dir_unfold.
  - cbn in Hne, Hg |- *.
    destruct (String.eqb_spec path "/"); [contradiction|]. cbn [negb].
    now rewrite Hg.
  - destruct (Hbefore 0 ltac:(lia)) as [Hne0 Hg0]. cbn in Hne0, Hg0.
    destruct (String.eqb_spec path "/"); [contradiction|]. cbn [negb].
    rewrite Hg0, ancestor_S. apply IH; rewrite <- ?ancestor_S; try assumption; [|lia].
    intros i Hi. rewrite <- ancestor_S. apply Hbefore. lia.
Qed.

(** The walk fails once it reaches the root without a find. *)
Lemma find_git_dir_reaches_root (k fuel : nat) (path : string) :
  (forall i, i < k ->
     ancestor w i path <> "/" /\ contains_git w (ancestor w i path) = false) ->
  ancestor w k path = "/" ->
  k < fuel ->
  _find_git_dir w fuel path = Raises not_found.
Proof.
  revert fuel path. induction k as [|k IH]; intros fuel path Hbefore Hroot Hlt;
    (destruct fuel as [|fuel]; [lia|]); rewrite find_git_dir_unfold.
  - cbn in Hroot. now subst path.
  - destruct (Hbefore 0 ltac:(lia)) as [Hne0 Hg0]. cbn in Hne0, Hg0.
    destruct (String.eqb_spec path "/"); [contradiction|]. cbn [negb].
    rewrite Hg0. apply IH; rewrite <- ?ancestor_S; try assumption; [|lia].
    intros i Hi. rewrite <- ancestor_S. apply Hbefore. lia.
Qed.

End Walk.

(** ** Normal forms of [posixpath] *)

Section Paths.

Import posixpath.

#[local] Arguments String.append _ _ : simpl nomatch.

Lemma append_assoc (a b c : string) : (a +:+ b) +:+ c = a +:+ (b +:+ c).
Proof. induction a as [|x a IH]; simpl; [reflexivity|now f_equal]. Qed.

Lemma split_not_nil (s : string) : split s <> [].
Proof.
  induction s as [|c s IH]; cbn; [discriminate|].
  destruct (Ascii.eqb c "/"); [discriminate|].
  destruct (split s); discriminate.
Qed.

Lemma split_app_sep (a b : string) :
  split (a +:+ String "/" b) = split a ++ split b.
Proof.
  induction a as [|c a IH]; [reflexivity|].
  cbn [String.append split]. rewrite IH.
  destruct (Ascii.eqb c "/"); [reflexivity|].
  destruct (split a) eqn:E; [now apply split_not_nil in E|reflexivity].
Qed.

Lemma split_no_sep (s : string) : no_sep s = true -> split s = [s].
Proof.
  induction s as [|c s IH]; [reflexivity|]. cbn [no_sep split]. intros H.
  apply andb_prop in H as [Hc Hs]. apply negb_true_iff in Hc.
  now rewrite Hc, (IH Hs).
Qed.

Lemma split_all_no_sep (s : string) : Forall (fun c => no_sep c = true) (split s).
Proof.
  induction s as [|c s IH]; cbn [split]; [now repeat constructor|].
  destruct (Ascii.eqb c "/") eqn:Hc; [now constructor|].
  destruct (split s) as [|x xs]; [repeat constructor; cbn; now rewrite Hc|].
  inversion IH as [|? ? Hx Hxs]; subst. constructor; [|assumption].
  cbn. now rewrite Hc, Hx.
Qed.

Lemma split_sep_join (cs : list string) :
  Forall (fun c => no_sep c = true) cs -> cs <> [] -> split (sep_join cs) = cs.
Proof.
  induction cs as [|c cs IH]; intros Hall Hne; [contradiction|].
  inversion Hall as [|? ? Hc Hcs]; subst.
  destruct cs as [|c2 cs]; [now apply split_no_sep|].
  change (sep_join (c :: c2 :: cs)) with (c +:+ String "/" (sep_join (c2 :: cs))).
  rewrite split_app_sep, split_no_sep, IH by (assumption || discriminate).
  reflexivity.
Qed.

Lemma sep_join_snoc (cs : list string) (c : string) :
  cs <> [] -> sep_join (cs ++ [c]) = sep_join cs +:+ String "/" c.
Proof.
  induction cs as [|x cs IH]; intros Hne; [contradiction|].
  destruct cs as [|y cs]; [reflexivity|].
  change (sep_join ((x :: y :: cs) ++ [c]))
    with (x +:+ String "/" (sep_join ((y :: cs) ++ [c]))).
  rewrite IH by discriminate.
  change (sep_join (x :: y :: cs)) with (x +:+ String "/" (sep_join (y :: cs))).
  rewrite append_assoc. reflexivity.
Qed.

Lemma clean_no_sep (c : string) : clean c = true -> no_sep c = true.
Proof. unfold clean. intros H. now repeat (apply andb_prop in H as [H _]). Qed.

Lemma clean_spec (c : string) :
  clean c = true <->
  no_sep c = true /\ c <> "" /\ c <> curdir /\ c <> pardir.
Proof.
  unfold clean. rewrite !andb_true_iff, !negb_true_iff, !String.eqb_neq. tauto.
Qed.

Lemma norm_step_clean (n : nat) (acc : list string) (c : string) :
  clean c = true -> norm_step n acc c = acc ++ [c].
Proof.
  intros H. apply clean_spec in H as (_ & H1 & H2 & H3).
  apply String.eqb_neq in H1, H2, H3. unfold norm_step.
  now rewrite H1, H2, H3.
Qed.

Lemma fold_norm_step_clean (n : nat) (cs acc : list string) :
  Forall (fun c => clean c = true) cs ->
  fold_left (norm_step n) cs acc = acc ++ cs.
Proof.
  revert acc. induction cs as [|c cs IH]; intros acc H; cbn [fold_left].
  - now rewrite app_nil_r.
  - inversion H; subst. rewrite norm_step_clean, IH, <- app_assoc by assumption.
    reflexivity.
Qed.

Lemma Forall_removelast {A} (P : A -> Prop) (l : list A) :
  Forall P l -> Forall P (removelast l).
Proof.
  induction l as [|x l IH]; intros H; [constructor|].
  inversion H; subst. destruct l; [constructor|].
  change (removelast (x :: a :: l)) with (x :: removelast (a :: l)). auto.
Qed.

Lemma last_clean (acc : list string) :
  acc <> [] -> Forall (fun c => clean c = true) acc ->
  clean (List.last acc "") = true.
Proof.
  induction acc as [|x acc IH]; intros Hne H; [contradiction|].
  inversion H; subst. destruct acc; [assumption|].
  change (List.last (x :: s :: acc) "") with (List.last (s :: acc) "").
  apply IH; [discriminate|assumption].
Qed.

(** With a leading separator, a [".."] pops a component and is never kept. *)
Lemma norm_step_pardir (n : nat) (acc : list string) :
  n <> 0 -> Forall (fun c => clean c = true) acc ->
  norm_step n acc pardir = removelast acc.
Proof.
  intros Hn H. unfold norm_step. cbn [String.eqb pardir curdir].
  replace (String.eqb pardir "" || String.eqb pardir curdir) with false by reflexivity.
  replace (String.eqb pardir pardir) with true by reflexivity.
  apply Nat.eqb_neq in Hn. rewrite Hn. cbn [negb andb orb].
  destruct acc as [|x acc]; [reflexivity|]. cbn [is_nil negb andb].
  pose proof (last_clean (x :: acc) ltac:(discriminate) H) as Hl.
  apply clean_spec in Hl as (_ & _ & _ & Hl). apply String.eqb_neq in Hl.
  now rewrite Hl.
Qed.

Lemma norm_step_keeps_clean (n : nat) (acc : list string) (c : string) :
  n <> 0 -> Forall (fun c => clean c = true) acc -> no_sep c = true ->
  Forall (fun c => clean c = true) (norm_step n acc c).
Proof.
  intros Hn H Hc.
  destruct (String.eqb_spec c pardir) as [->|Hp].
  - rewrite norm_step_pardir by assumption. now apply Forall_removelast.
  - unfold norm_step.
    destruct (String.eqb_spec c "") as [|He]; [assumption|].
    destruct (String.eqb_spec c curdir) as [|Hd]; [assumption|]. cbn [orb].
    apply String.eqb_neq in Hp. rewrite Hp. cbn [negb orb].
    apply Forall_app. split; [assumption|]. constructor; [|constructor].
    apply clean_spec. apply String.eqb_neq in Hp. auto.
Qed.

Lemma fold_norm_step_keeps_clean (n : nat) (l acc : list string) :
  n <> 0 -> Forall (fun c => clean c = true) acc ->
  Forall (fun c => no_sep c = true) l ->
  Forall (fun c => clean c = true) (fold_left (norm_step n) l acc).
Proof.
  intros Hn. revert acc. induction l as [|c l IH]; intros acc H Hl; [assumption|].
  inversion Hl; subst. cbn [fold_left]. apply IH; [|assumption].
  now apply norm_step_keeps_clean.
Qed.

Lemma initial_slashes_single (p : string) :
  isabs p = true -> double_slash p = false -> initial_slashes p = 1.
Proof.
  unfold isabs, double_slash, initial_slashes. now intros -> ->.
Qed.

(** [normpath] of an absolute path without exactly two leading separators is
    rooted on clean components. *)
Lemma normpath_rooted (p : string) :
  isabs p = true -> double_slash p = false ->
  exists cs, Forall (fun c => clean c = true) cs /\ normpath p = rooted cs.
Proof.
  intros Habs Hds.
  exists (fold_left (norm_step 1) (split p) []). split.
  - apply fold_norm_step_keeps_clean; [discriminate|constructor|apply split_all_no_sep].
  - unfold normpath. rewrite (initial_slashes_single p Habs Hds).
    destruct p as [|c p]; [discriminate|]. reflexivity.
Qed.

Lemma clean_head (c : string) :
  clean c = true -> exists a c', c = String a c' /\ Ascii.eqb a "/" = false.
Proof.
  intros H. apply clean_spec in H as (Hs & Hne & _).
  destruct c as [|a c']; [contradiction|]. exists a, c'. split; [reflexivity|].
  cbn in Hs. apply andb_prop in Hs as [Hs _]. now apply negb_true_iff.
Qed.

Lemma endswith_sep_no_sep (c : string) : no_sep c = true -> endswith_sep c = false.
Proof.
  induction c as [|a c IH]; [reflexivity|]. cbn [no_sep]. intros H.
  apply andb_prop in H as [Ha Hc]. apply negb_true_iff in Ha.
  destruct c; [exact Ha|]. now apply IH.
Qed.

Lemma endswith_sep_app (a b : string) :
  b <> "" -> endswith_sep (a +:+ b) = endswith_sep b.
Proof.
  intros Hb. induction a as [|x a IH]; [reflexivity|].
  cbn [String.append endswith_sep]. destruct (a +:+ b) eqn:E; [|exact IH].
  destruct a; [now subst|discriminate].
Qed.

Lemma sep_join_not_empty (cs : list string) :
  cs <> [] -> Forall (fun c => clean c = true) cs -> sep_join cs <> "".
Proof.
  intros Hne H. destruct cs as [|c cs]; [contradiction|]. inversion H; subst.
  destruct (clean_head c) as (a & c' & -> & _); [assumption|].
  destruct cs; discriminate.
Qed.

Lemma endswith_sep_join (cs : list string) :
  Forall (fun c => clean c = true) cs -> endswith_sep (sep_join cs) = false.
Proof.
  induction cs as [|c cs IH]; intros H; [reflexivity|]. inversion H; subst.
  destruct cs as [|c2 cs]; [now apply endswith_sep_no_sep, clean_no_sep|].
  change (sep_join (c :: c2 :: cs)) with (c +:+ String "/" (sep_join (c2 :: cs))).
  rewrite endswith_sep_app by discriminate.
  specialize (IH ltac:(assumption)).
  pose proof (sep_join_not_empty (c2 :: cs) ltac:(discriminate) ltac:(assumption)).
  cbn [endswith_sep]. now destruct (sep_join (c2 :: cs)).
Qed.

Lemma rooted_nil : rooted [] = "/".
Proof. reflexivity. Qed.

Lemma rooted_not_root (cs : list string) :
  cs <> [] -> Forall (fun c => clean c = true) cs -> rooted cs <> "/".
Proof.
  intros Hne H E. apply (sep_join_not_empty cs Hne H).
  unfold rooted in E. cbn in E. now inversion E.
Qed.

(** Joining [".."] to a rooted path appends it as one more component. *)
Lemma join_rooted_pardir (cs : list string) :
  cs <> [] -> Forall (fun c => clean c = true) cs ->
  join (rooted cs) pardir = rooted (cs ++ [pardir]).
Proof.
  intros Hne H. unfold join.
  change (startswith pardir sep) with false. cbv iota.
  assert (Hr : String.eqb (rooted cs) "" || endswith_sep (rooted cs) = false).
  { pose proof (endswith_sep_join cs H) as He.
    pose proof (sep_join_not_empty cs Hne H) as Hs.
    unfold rooted. simpl. now destruct (sep_join cs). }
  rewrite Hr. unfold rooted. rewrite sep_join_snoc by assumption.
  reflexivity.
Qed.

(** [normpath] on a rooted path whose components hold no separator and
    start with a clean one runs its loop over exactly these components. *)
Lemma normpath_rooted_comps (c : string) (l : list string) :
  clean c = true -> Forall (fun x => no_sep x = true) l ->
  normpath (rooted (c :: l)) = rooted (fold_left (norm_step 1) l [c]).
Proof.
  intros Hc Hl. destruct (clean_head c Hc) as (a & c' & -> & Ha).
  assert (Hsplit : split (rooted (String a c' :: l)) = "" :: String a c' :: l).
  { unfold rooted. cbn [sep String.append]. 
    change (String "/" (sep_join (String a c' :: l)))
      with ("" +:+ String "/" (sep_join (String a c' :: l))).
    rewrite split_app_sep, split_sep_join; [reflexivity| |discriminate].
    constructor; [now apply clean_no_sep|assumption]. }
  assert (Hinit : initial_slashes (rooted (String a c' :: l)) = 1).
  { unfold rooted, initial_slashes. cbn [sep String.append].
    assert (Hh : exists t, sep_join (String a c' :: l) = String a t).
    { destruct l; [now exists c'|]. eexists. reflexivity. }
    destruct Hh as [t ->]. cbn [startswith]. rewrite Ascii.eqb_sym in Ha.
    now rewrite Ha. }
  unfold normpath. rewrite Hinit, Hsplit.
  cbn [fold_left]. change (norm_step 1 [] "") with (@nil string).
  rewrite (norm_step_clean 1 [] _ Hc). reflexivity.
Qed.

(** Moving to the parent of a rooted path drops its last component. *)
Lemma normpath_join_rooted_pardir (cs : list string) :
  cs <> [] -> Forall (fun c => clean c = true) cs ->
  normpath (join (rooted cs) pardir) = rooted (removelast cs).
Proof.
  intros Hne H. rewrite join_rooted_pardir by assumption.
  destruct cs as [|c cs]; [contradiction|]. inversion H; subst.
  change ((c :: cs) ++ [pardir]) with (c :: (cs ++ [pardir])).
  rewrite normpath_rooted_comps; [|assumption|].
  - rewrite fold_left_app. cbn [fold_left].
    rewrite fold_norm_step_clean by assumption.
    change ([c] ++ cs) with (c :: cs).
    rewrite norm_step_pardir; [reflexivity|discriminate|assumption].
  - apply Forall_app. split; [|now repeat constructor].
    eapply List.Forall_impl; [|eassumption]. intros x. apply clean_no_sep.
Qed.

Lemma startswith_nil (s : string) : startswith s "" = true.
Proof. now destruct s. Qed.

Ltac leading_slashes :=
  unfold double_slash, isabs, sep in *;
  cbn [startswith String.append] in *;
  rewrite ?startswith_nil, ?Ascii.eqb_refl in *;
  repeat match goal with
         | H : Ascii.eqb _ _ = _ |- _ => rewrite H in *; clear H
         end;
  cbn [andb negb] in *; try discriminate; auto.

(** Joining a relative path to an absolute one keeps its leading
    separators. *)
Lemma join_keeps_root (a b : string) :
  isabs a = true -> double_slash a = false -> isabs b = false ->
  isabs (join a b) = true /\ double_slash (join a b) = false.
Proof.
  intros Ha Hds Hb. unfold join. fold (isabs b). rewrite Hb.
  destruct a as [|c1 a]; [discriminate|].
  assert (Hc1 : c1 = "/"%char).
  { unfold isabs, sep in Ha. cbn [startswith] in Ha.
    apply andb_prop in Ha as [Hc1 _]. now apply Ascii.eqb_eq in Hc1. }
  subst c1. destruct a as [|c2 a].
  - change (String.eqb "/" "" || endswith_sep "/") with true. cbv iota.
    split; leading_slashes. now rewrite Hb.
  - destruct (String.eqb (String "/" (String c2 a)) ""
              || endswith_sep (String "/" (String c2 a)));
      (split; [leading_slashes|]);
      (destruct (Ascii.eqb "/" c2) eqn:E2; [|leading_slashes]);
      (destruct a as [|c3 a]; [leading_slashes|]);
      (destruct (Ascii.eqb "/" c3) eqn:E3; leading_slashes).
Qed.

Lemma join_relative (a b : string) :
  isabs a = false -> isabs b = false -> isabs (join a b) = false.
Proof.
  unfold isabs, join. intros Ha Hb. rewrite Hb.
  destruct a as [|c a]; [exact Hb|].
  unfold sep in *. cbn [startswith] in Ha. rewrite ?startswith_nil in Ha.
  destruct (String.eqb (String c a) "" || endswith_sep (String c a));
    cbn [String.append startswith]; destruct (Ascii.eqb "/" c);
    (discriminate || reflexivity).
Qed.

End Paths.

(** ** The walk reaches the root *)

Section Termination.

Import posixpath.

Variable w : World.

Hypothesis cwd_absolute : isabs (getcwd w) = true.
Hypothesis cwd_single : double_slash (getcwd w) = false.

Lemma parent_rooted (cs : list string) :
  cs <> [] -> Forall (fun c => clean c = true) cs ->
  parent w (rooted cs) = rooted (removelast cs).
Proof.
  intros Hne H. unfold parent, abspath.
  rewrite <- (normpath_join_rooted_pardir cs Hne H).
  rewrite (join_rooted_pardir cs Hne H).
  change (isabs (rooted (cs ++ [pardir]))) with true. reflexivity.
Qed.

Lemma parent_is_rooted (p : string) :
  double_slash p = false ->
  exists cs, Forall (fun c => clean c = true) cs /\ parent w p = rooted cs.
Proof.
  intros Hds. unfold parent, abspath.
  destruct (isabs p) eqn:Hp.
  - destruct (join_keeps_root p pardir Hp Hds eq_refl) as [Ha Hd].
    rewrite Ha. now apply normpath_rooted.
  - rewrite (join_relative p pardir Hp eq_refl).
    destruct (join_keeps_root (getcwd w) (join p pardir) cwd_absolute cwd_single
                (join_relative p pardir Hp eq_refl)) as [Ha Hd].
    now apply normpath_rooted.
Qed.

Lemma walk_rooted (n : nat) (cs : list string) :
  length cs = n -> Forall (fun c => clean c = true) cs ->
  ancestor w n (rooted cs) = "/" /\
  forall i, i < n -> ancestor w i (rooted cs) <> "/".
Proof.
  revert cs. induction n as [|n IH]; intros cs Hlen H.
  - destruct cs; [|discriminate]. split; [reflexivity|]. intros i Hi. lia.
  - assert (Hne : cs <> []) by (intros ->; discriminate).
    assert (Hlen' : length (removelast cs) = n).
    { destruct cs as [|c cs] using rev_ind; [contradiction|].
      rewrite removelast_last. rewrite length_app in Hlen. cbn in Hlen. lia. }
    destruct (IH (removelast cs) Hlen' (Forall_removelast _ _ H)) as [Hroot Hbefore].
    split.
    + now rewrite ancestor_S, parent_rooted.
    + intros [|i] Hi.
      * now apply rooted_not_root.
      * rewrite ancestor_S, parent_rooted by assumption. apply Hbefore. lia.
Qed.

(** From a start without exactly two leading separators the walk reaches
    ["/"] after finitely many moves to the parent. *)
Lemma walk_reaches_root (p : string) :
  double_slash p = false ->
  exists n, ancestor w n p = "/" /\ forall i, i < n -> ancestor w i p <> "/".
Proof.
  intros Hds. destruct (String.eqb_spec p "/") as [->|Hne].
  - exists 0. split; [reflexivity|]. intros i Hi. lia.
  - destruct (parent_is_rooted p Hds) as (cs & Hcs & Hp).
    destruct (walk_rooted (length cs) cs eq_refl Hcs) as [Hroot Hbefore].
    exists (S (length cs)). split.
    + now rewrite ancestor_S, Hp.
    + intros [|i] Hi; [exact Hne|].
      rewrite ancestor_S, Hp. apply Hbefore. lia.
Qed.

End Termination.

(** ** The Repository Locator *)

(** Once the walk reaches the root, the loop ends with a result. *)
Lemma find_git_dir_total (w : World) (n fuel : nat) (path : string) :
  ancestor w n path = "/" -> n < fuel -> _find_git_dir w fuel path <> OutOfFuel.
Proof.
  revert fuel path. induction n as [|n IH]; intros fuel path Hroot Hlt;
    (destruct fuel as [|fuel]; [lia|]); rewrite find_git_dir_unfold.
  - cbn in Hroot. now subst path.
  - destruct (negb (String.eqb path "/")); [|discriminate].
    destruct (contains_git w path); [discriminate|].
    apply IH; [now rewrite <- ancestor_S|lia].
Qed.

(** C1 (amended).  With a working directory that is absolute and does not
    start with exactly two separators, and a starting path that does not
    start with exactly two separators, the walk from the starting path reaches
    ["/"] after some [n] moves to the parent; with enough fuel,
    [_find_git_dir] returns the nearest of the [n] directories before ["/"]
    that contains [.git], and raises [FileNotFoundError] when none of these
    [n] directories contains it (["/"] itself is not examined). *)
Theorem find_git_dir_nearest_or_not_found (w : World) (path : string) :
  posixpath.isabs (getcwd w) = true ->
  double_slash (getcwd w) = false ->
  double_slash path = false ->
  exists n,
    ancestor w n path = "/" /\
    (forall i, i < n -> ancestor w i path <> "/") /\
    forall fuel, n < fuel ->
      (forall k, k < n ->
         contains_git w (ancestor w k path) = true ->
         (forall i, i < k -> contains_git w (ancestor w i path) = false) ->
         _find_git_dir w fuel path = Returns (ancestor w k path)) /\
      ((forall i, i < n -> contains_git w (ancestor w i path) = false) ->
       _find_git_dir w fuel path = Raises not_found).
Proof.
  intros Habs Hcwd Hpath.
  destruct (walk_reaches_root w Habs Hcwd path Hpath) as (n & Hroot & Hbefore).
  exists n. repeat split; try assumption.
  - intros k Hk Hgit Hnone.
    apply find_git_dir_nearest; try assumption; [|apply Hbefore; lia|lia].
    intros i Hi. split; [apply Hbefore; lia|now apply Hnone].
  - intros Hnone. apply (find_git_dir_reaches_root w n); try assumption.
    intros i Hi. split; [now apply Hbefore|now apply Hnone].
Qed.

Lemma find_git_dir_nearest_or_not_found_witness :
  posixpath.isabs (getcwd w_repo) = true /\
  double_slash (getcwd w_repo) = false /\
  double_slash "/home/u/proj/src/x" = false /\
  exists n,
    ancestor w_repo n "/home/u/proj/src/x" = "/" /\
    (forall i, i < n -> ancestor w_repo i "/home/u/proj/src/x" <> "/") /\
    forall fuel, n < fuel ->
      (forall k, k < n ->
         contains_git w_repo (ancestor w_repo k "/home/u/proj/src/x") = true ->
         (forall i, i < k ->
            contains_git w_repo (ancestor w_repo i "/home/u/proj/src/x") = false) ->
         _find_git_dir w_repo fuel "/home/u/proj/src/x" =
         Returns (ancestor w_repo k "/home/u/proj/src/x")) /\
      ((forall i, i < n ->
          contains_git w_repo (ancestor w_repo i "/home/u/proj/src/x") = false) ->
       _find_git_dir w_repo fuel "/home/u/proj/src/x" = Raises not_found).
Proof.
  split; [reflexivity|]. split; [reflexivity|]. split; [reflexivity|].
  apply (find_git_dir_nearest_or_not_found w_repo "/home/u/proj/src/x");
    reflexivity.
Defined.

(** C1, as stated, fails: from ["/srv"] the ancestor ["/"] contains [.git],
    yet [_find_git_dir] never returns and raises [FileNotFoundError]. *)
Lemma find_git_dir_misses_repo_at_root :
  ancestor w_root_repo 1 "/srv" = "/" /\
  contains_git w_root_repo (ancestor w_root_repo 1 "/srv") = true /\
  (forall fuel dir, _find_git_dir w_root_repo fuel "/srv" <> Returns dir) /\
  (forall fuel, 1 < fuel -> _find_git_dir w_root_repo fuel "/srv" = Raises not_found).
Proof.
  split; [reflexivity|]. split; [reflexivity|]. split.
  - intros [|[|[|fuel]]] dir; discriminate.
  - intros [|[|fuel]] Hlt; try lia. reflexivity.
Qed.

(** C7 (divergence).  From ["//"] the parent is ["//"] again, which differs
    from ["/"]: without a [.git] there the loop never ends, whatever the
    bound on its iterations. *)
Theorem find_git_dir_double_slash_diverges (fuel : nat) :
  parent w_no_repo "//" = "//" /\
  _find_git_dir w_no_repo fuel "//" = OutOfFuel.
Proof.
  split; [reflexivity|].
  induction fuel as [|fuel IH]; [reflexivity|].
  rewrite find_git_dir_unfold.
  change (negb (String.eqb "//" "/")) with true.
  change (contains_git w_no_repo "//") with false.
  change (parent w_no_repo "//") with "//". exact IH.
Qed.

(** C9.  Started at ["/"], [_find_git_dir] raises [FileNotFoundError] in
    every world, so also in those where ["/"] contains [.git]: the result
    does not depend on what exists. *)
Theorem find_git_dir_root_raises (w : World) (fuel : nat) :
  _find_git_dir w (S fuel) "/" = Raises (FileNotFoundError ".git directory not found").
Proof. reflexivity. Qed.

(** C10 (amended).  A starting path other than ["/"] that contains [.git]
    is returned unchanged at the first iteration, whatever its ancestors
    contain. *)
Theorem find_git_dir_start_has_git (w : World) (fuel : nat) (path : string) :
  path <> "/" ->
  contains_git w path = true ->
  _find_git_dir w (S fuel) path = Returns path.
Proof.
  intros Hne Hgit. rewrite find_git_dir_unfold.
  apply String.eqb_neq in Hne. now rewrite Hne, Hgit.
Qed.

Lemma find_git_dir_start_has_git_witness :
  "." <> "/" /\
  contains_git w_repo "." = true /\
  contains_git w_repo (ancestor w_repo 2 ".") = true /\
  _find_git_dir w_repo 1 "." = Returns ".".
Proof.
  split; [discriminate|]. split; [reflexivity|]. split; [reflexivity|].
  apply (find_git_dir_start_has_git w_repo 0 "."); [discriminate|reflexivity].
Defined.

(** C10, as stated, fails at the starting path ["/"]: it contains [.git]
    and is not returned. *)
Lemma find_git_dir_root_start_not_returned :
  contains_git w_root_repo "/" = true /\
  forall fuel, _find_git_dir w_root_repo fuel "/" <> Returns "/".
Proof.
  split; [reflexivity|]. intros [|fuel]; discriminate.
Qed.

(** ** The pipeline: message generation and commit *)

Section Pipeline.

Variable w : World.

Lemma bind_returns {A B} (m : M A) (k : A -> M B) (h : history) (b : B)
  (evs : list event) :
  bind m k h = (Returns b, evs) ->
  exists a e1 e2,
    m h = (Returns a, e1) /\ k a (h ++ e1) = (Returns b, e2) /\ evs = e1 ++ e2.
Proof.
  unfold bind. destruct (m h) as [[a| |] e1]; try discriminate.
  destruct (k a (h ++ e1)) as [r e2] eqn:Hk. intros H. inversion H; subst.
  now exists a, e1, e2.
Qed.

Lemma bind_run {A B} (m : M A) (k : A -> M B) (h : history) (a : A)
  (e1 : list event) :
  m h = (Returns a, e1) ->
  bind m k h = (fst (k a (h ++ e1)), e1 ++ snd (k a (h ++ e1))).
Proof. unfold bind. intros ->. now destruct (k a (h ++ e1)). Qed.

Lemma bind_raises {A B} (m : M A) (k : A -> M B) (h : history) (e : exn)
  (e1 : list event) :
  m h = (Raises e, e1) -> bind m k h = (Raises e, e1).
Proof. unfold bind. now intros ->. Qed.

(** The calls of [_diff]: at most [Repo.init] and [git diff]. *)
Lemma diff_events (fuel : nat) (h : history) (ev : event) :
  In ev (snd (_diff w fuel h)) ->
  (exists dir, ev = RepoInit dir) \/ (exists dir, ev = GitDiff dir).
Proof.
  unfold _diff, bind, pure_outcome, Repo_init, repo_git_diff.
  destruct (_find_git_dir w fuel ".") as [dir| |]; cbn; try tauto.
  destruct (repo_init w (h ++ []) dir); cbn; [intros [<-|[]]; eauto|].
  intros [<-|[<-|[]]]; eauto.
Qed.

(** When the diff is obtained, [_commit_message] logs it and issues one
    completion request, whose outcome is its own. *)
Lemma commit_message_run (fuel : nat) (gpt4 large : bool) (h : history)
  (diff : string) (evs : list event) :
  _diff w fuel h = (Returns diff, evs) ->
  _commit_message w fuel gpt4 large h =
  (of_sum (request_goal w (h ++ evs ++ [LogDebug "Diff: %s" [diff]]) diff goal
             (negb gpt4) large),
   evs ++ [LogDebug "Diff: %s" [diff]; RequestGoal diff goal (negb gpt4) large]).
Proof.
  intros Hd. unfold _commit_message. rewrite (bind_run _ _ _ _ _ Hd).
  unfold bind, logging_debug, _request_goal. cbn.
  now rewrite <- app_assoc.
Qed.

(** Every completion request of [_commit_message] is the one above. *)
Lemma commit_message_requests (fuel : nat) (gpt4 large : bool) (h : history)
  (c g : string) (f l : bool) :
  In (RequestGoal c g f l) (snd (_commit_message w fuel gpt4 large h)) ->
  g = goal /\ f = negb gpt4 /\ l = large.
Proof.
  destruct (_diff w fuel h) as [[diff| |] evs] eqn:Hd.
  - rewrite (commit_message_run fuel gpt4 large h diff evs Hd). cbn [snd].
    rewrite in_app_iff. intros [Hin|[Hin|[Hin|[]]]]; try discriminate.
    + pose proof (diff_events fuel h (RequestGoal c g f l)) as He.
      rewrite Hd in He. destruct (He Hin) as [[? ?]|[? ?]]; discriminate.
    + now inversion Hin.
  - unfold _commit_message. rewrite (bind_raises _ _ _ _ _ Hd). cbn [snd].
    intros Hin. pose proof (diff_events fuel h (RequestGoal c g f l)) as He.
    rewrite Hd in He. destruct (He Hin) as [[? ?]|[? ?]]; discriminate.
  - unfold _commit_message, bind. rewrite Hd. cbn [snd].
    intros Hin. pose proof (diff_events fuel h (RequestGoal c g f l)) as He.
    rewrite Hd in He. destruct (He Hin) as [[? ?]|[? ?]]; discriminate.
Qed.

End Pipeline.

(** C2.  Whatever the two flags, every completion request issued by
    [_commit_message] carries [fast = not gpt4] and [large = large], and when
    the diff is obtained exactly this request is issued after the calls of
    [_diff] and the debug record. *)
Theorem commit_message_flags (w : World) (fuel : nat) (gpt4 large : bool)
  (h : history) :
  (forall c g f l,
     In (RequestGoal c g f l) (snd (_commit_message w fuel gpt4 large h)) ->
     f = negb gpt4 /\ l = large) /\
  (forall diff evs,
     _diff w fuel h = (Returns diff, evs) ->
     snd (_commit_message w fuel gpt4 large h) =
     evs ++ [LogDebug "Diff: %s" [diff];
             RequestGoal diff goal (negb gpt4) large]).
Proof.
  split.
  - intros c g f l Hin.
    now destruct (commit_message_requests w fuel gpt4 large h c g f l Hin) as (_ & ? & ?).
  - intros diff evs Hd. now rewrite (commit_message_run w fuel gpt4 large h diff evs Hd).
Qed.

Lemma commit_message_flags_witness :
  (In (RequestGoal sample_diff goal false true)
      (snd (_commit_message w_repo 5 true true [])) /\
   _diff w_repo 5 [] = (Returns sample_diff, [RepoInit "."; GitDiff "."])) /\
  (false = negb true /\ true = true) /\
  snd (_commit_message w_repo 5 true true []) =
  [RepoInit "."; GitDiff "."] ++
  [LogDebug "Diff: %s" [sample_diff]; RequestGoal sample_diff goal (negb true) true].
Proof.
  split; [split; [vm_compute; auto 10|reflexivity]|]. split.
  - apply (proj1 (commit_message_flags w_repo 5 true true [])
             sample_diff goal false true). vm_compute. auto 10.
  - apply (proj2 (commit_message_flags w_repo 5 true true [])
             sample_diff [RepoInit "."; GitDiff "."]). reflexivity.
Defined.

(** C5.  When the staged diff is the empty string, [_commit_message] still
    issues the completion request, with the empty string as content, and its
    outcome is the outcome of that request. *)
Theorem commit_message_empty_diff (w : World) (fuel : nat) (gpt4 large : bool)
  (h : history) (evs : list event) :
  _diff w fuel h = (Returns "", evs) ->
  _commit_message w fuel gpt4 large h =
  (of_sum (request_goal w (h ++ evs ++ [LogDebug "Diff: %s" [""]]) "" goal
             (negb gpt4) large),
   evs ++ [LogDebug "Diff: %s" [""]; RequestGoal "" goal (negb gpt4) large]).
Proof. apply commit_message_run. Qed.

Lemma commit_message_empty_diff_witness :
  _diff w_empty_diff 5 [] = (Returns "", [RepoInit "."; GitDiff "."]) /\
  _commit_message w_empty_diff 5 false false [] =
  (Returns "Add line",
   [RepoInit "."; GitDiff "."; LogDebug "Diff: %s" [""];
    RequestGoal "" goal true false]).
Proof.
  split; [reflexivity|].
  apply (commit_message_empty_diff w_empty_diff 5 false false []
           [RepoInit "."; GitDiff "."]).
  reflexivity.
Defined.

(** C8.  The instruction of every completion request issued by
    [_commit_message] is the constant [goal], whatever the world (so whatever
    the diff) and whatever the flags. *)
Theorem commit_message_goal_fixed (w : World) (fuel : nat) (gpt4 large : bool)
  (h : history) (c g : string) (f l : bool) :
  In (RequestGoal c g f l) (snd (_commit_message w fuel gpt4 large h)) ->
  g = nl +:+ "Create a short, single-line, git commit message for these changes"
      +:+ nl.
Proof.
  intros Hin.
  now destruct (commit_message_requests w fuel gpt4 large h c g f l Hin) as (-> & _).
Qed.

Lemma commit_message_goal_fixed_witness :
  In (RequestGoal "" goal false true)
     (snd (_commit_message w_empty_diff 5 true true [])) /\
  goal = nl +:+ "Create a short, single-line, git commit message for these changes"
         +:+ nl.
Proof.
  split; [vm_compute; auto 10|].
  apply (commit_message_goal_fixed w_empty_diff 5 true true [] "" goal false true).
  vm_compute. auto 10.
Defined.

(** C6.  When [_find_git_dir] raises, the error is its [FileNotFoundError]
    and [_commit] raises it without having called any collaborator: no diff,
    no completion request, no commit, no push. *)
Theorem commit_locator_failure (w : World) (fuel : nat) (gpt4 large push : bool)
  (h : history) (e : exn) :
  _find_git_dir w fuel "." = Raises e ->
  e = FileNotFoundError ".git directory not found" /\
  _commit w fuel gpt4 large push h = (Raises e, []).
Proof.
  intros Hf. split; [exact (find_git_dir_raises w fuel "." e Hf)|].
  unfold _commit, _commit_message, _diff, bind, pure_outcome.
  now rewrite Hf.
Qed.

Lemma commit_locator_failure_witness :
  _find_git_dir w_no_repo 5 "." = Raises not_found /\
  not_found = FileNotFoundError ".git directory not found" /\
  _commit w_no_repo 5 false false true [] = (Raises not_found, []).
Proof.
  split; [reflexivity|].
  apply (commit_locator_failure w_no_repo 5 false false true [] not_found).
  reflexivity.
Defined.

(** A run of [_commit] that returns went through these steps. *)
Lemma commit_returns (w : World) (fuel : nat) (gpt4 large push : bool)
  (h : history) (m : gmap string string) (evs : list event) :
  _commit w fuel gpt4 large push h = (Returns m, evs) ->
  exists message e1 dir c tail v,
    _commit_message w fuel gpt4 large h = (Returns message, e1) /\
    _find_git_dir w fuel "." = Returns dir /\
    git_commit w (h ++ e1 ++ [LogDebug "Commit Message: %s" [message]; RepoInit dir])
      dir message = inr c /\
    (if push
     then exists p, _push w fuel
                      (h ++ e1 ++ [LogDebug "Commit Message: %s" [message];
                                   RepoInit dir; GitCommit dir message])
                    = (Returns p, tail) /\ v = c +:+ nl +:+ p
     else tail = [] /\ v = c) /\
    evs = e1 ++ [LogDebug "Commit Message: %s" [message]; RepoInit dir;
                 GitCommit dir message] ++ tail /\
    m = {[ "response" := v ]}.
Proof.
  intros H. unfold _commit in H.
  apply bind_returns in H as (message & e1 & e2 & Hmsg & H & ->).
  apply bind_returns in H as ([] & e3 & e4 & Hlog & H & ->).
  apply bind_returns in H as (dir & e5 & e6 & Hfind & H & ->).
  apply bind_returns in H as (repo & e7 & e8 & Hinit & H & ->).
  apply bind_returns in H as (c & e9 & e10 & Hc & H & ->).
  apply bind_returns in H as (v & tail & e12 & Htail & H & ->).
  unfold logging_debug in Hlog. inversion Hlog; subst; clear Hlog.
  unfold pure_outcome in Hfind. inversion Hfind as [[Hdir He]]; subst; clear Hfind.
  unfold Repo_init in Hinit.
  destruct (repo_init w _ dir); inversion Hinit; subst; clear Hinit.
  unfold repo_git_commit in Hc.
  destruct (git_commit w _ repo message) as [|c'] eqn:Hgc;
    inversion Hc; subst; clear Hc.
  unfold ret in H. inversion H; subst; clear H.
  rewrite app_nil_r in *. rewrite <- !app_assoc in Hgc. cbn [app] in Hgc.
  exists message, e1, repo, c, tail, v. repeat split; try assumption.
  - destruct push.
    + apply bind_returns in Htail as (p & e13 & e14 & Hpush & H & ->).
      unfold ret in H. inversion H; subst; clear H.
      exists p. split; [|reflexivity]. rewrite app_nil_r.
      rewrite <- Hpush. f_equal. rewrite <- !app_assoc. reflexivity.
    + unfold ret in Htail. now inversion Htail.
Qed.

(** A run of [_push] that returns made exactly these three calls. *)
Lemma push_returns (w : World) (fuel : nat) (h : history) (p : string)
  (tail : list event) :
  _push w fuel h = (Returns p, tail) ->
  exists dir,
    _find_git_dir w fuel "." = Returns dir /\
    git_push w (h ++ [LogDebug "Pushing commit to remote." []; RepoInit dir]) dir
    = inr p /\
    tail = [LogDebug "Pushing commit to remote." []; RepoInit dir; GitPush dir].
Proof.
  intros H. unfold _push in H.
  apply bind_returns in H as ([] & e1 & e2 & Hlog & H & ->).
  apply bind_returns in H as (dir & e3 & e4 & Hfind & H & ->).
  apply bind_returns in H as (repo & e5 & e6 & Hinit & H & ->).
  unfold logging_debug in Hlog. inversion Hlog; subst; clear Hlog.
  unfold pure_outcome in Hfind. inversion Hfind as [[Hdir He]]; subst; clear Hfind.
  unfold Repo_init in Hinit.
  destruct (repo_init w _ dir); inversion Hinit; subst; clear Hinit.
  unfold repo_git_push in H.
  destruct (git_push w _ repo) as [|p'] eqn:Hgp; inversion H; subst; clear H.
  rewrite app_nil_r in Hgp. rewrite <- !app_assoc in Hgp. cbn [app] in Hgp.
  exists repo. repeat split; assumption.
Qed.

(** C3.  A run of [_commit] that returns yields the mapping with the single
    key ["response"]; its value is the string [c] returned by the commit
    operation when [push] is false, and [c], a newline and the string
    returned by the push operation when [push] is true. *)
Theorem commit_response (w : World) (fuel : nat) (gpt4 large push : bool)
  (h : history) (m : gmap string string) (evs : list event) :
  _commit w fuel gpt4 large push h = (Returns m, evs) ->
  exists pre dir message c,
    git_commit w (h ++ pre) dir message = inr c /\
    if push then
      exists mid p,
        evs = pre ++ GitCommit dir message :: mid ++ [GitPush dir] /\
        git_push w (h ++ pre ++ GitCommit dir message :: mid) dir = inr p /\
        m = {[ "response" := c +:+ nl +:+ p ]} /\
        m !! "response" = Some (c +:+ nl +:+ p)
    else
      evs = pre ++ [GitCommit dir message] /\
      m = {[ "response" := c ]} /\
      m !! "response" = Some c.
Proof.
  intros H.
  apply commit_returns in H
    as (message & e1 & dir & c & tail & v & Hmsg & Hdir & Hc & Hpush & -> & ->).
  exists (e1 ++ [LogDebug "Commit Message: %s" [message]; RepoInit dir]),
    dir, message, c.
  split; [exact Hc|]. destruct push.
  - destruct Hpush as (p & Hp & ->).
    apply push_returns in Hp as (dir' & Hdir' & Hgp & ->).
    assert (dir' = dir) by congruence. subst dir'.
    exists [LogDebug "Pushing commit to remote." []; RepoInit dir], p.
    split; [|split; [|split]].
    + now rewrite <- !app_assoc.
    + rewrite <- Hgp. f_equal. now rewrite <- !app_assoc.
    + reflexivity.
    + apply lookup_singleton_eq.
  - destruct Hpush as [-> ->]. split; [|split].
    + now rewrite <- !app_assoc.
    + reflexivity.
    + apply lookup_singleton_eq.
Qed.

Lemma commit_response_witness :
  _commit w_repo 5 false false true [] =
  (Returns {[ "response" := "[main 1a2b3c4] Add line" +:+ nl +:+ "To origin" ]},
   [RepoInit "."; GitDiff "."; LogDebug "Diff: %s" [sample_diff];
    RequestGoal sample_diff goal true false;
    LogDebug "Commit Message: %s" ["Add line"];
    RepoInit "."; GitCommit "." "Add line";
    LogDebug "Pushing commit to remote." []; RepoInit "."; GitPush "."]) /\
  exists pre dir message c,
    git_commit w_repo ([] ++ pre) dir message = inr c /\
    exists mid p,
      [RepoInit "."; GitDiff "."; LogDebug "Diff: %s" [sample_diff];
       RequestGoal sample_diff goal true false;
       LogDebug "Commit Message: %s" ["Add line"];
       RepoInit "."; GitCommit "." "Add line";
       LogDebug "Pushing commit to remote." []; RepoInit "."; GitPush "."]
      = pre ++ GitCommit dir message :: mid ++ [GitPush dir] /\
      git_push w_repo ([] ++ pre ++ GitCommit dir message :: mid) dir = inr p /\
      ({[ "response" := "[main 1a2b3c4] Add line" +:+ nl +:+ "To origin" ]}
         : gmap string string) = {[ "response" := c +:+ nl +:+ p ]} /\
      ({[ "response" := "[main 1a2b3c4] Add line" +:+ nl +:+ "To origin" ]}
         : gmap string string) !! "response" = Some (c +:+ nl +:+ p).
Proof.
  split; [reflexivity|].
  apply (commit_response w_repo 5 false false true []). reflexivity.
Defined.

(** C4.  Suppose the call without [push] returns, so that every step up to
    and including the commit operation succeeds, and suppose that in the call
    with [push] the push operation then raises [e].  Then [_commit] raises
    this [e]; its calls are those of the call without [push], which end with
    the commit operation, followed by the debug record, [Repo.init] and the
    failed push: nothing is called after the failed push. *)
Theorem commit_push_failure (w : World) (fuel : nat) (gpt4 large : bool)
  (h : history) (m : gmap string string) (evs : list event) (dir : string)
  (e : exn) :
  _commit w fuel gpt4 large false h = (Returns m, evs) ->
  _find_git_dir w fuel "." = Returns dir ->
  repo_init w (h ++ evs ++ [LogDebug "Pushing commit to remote." []]) dir = None ->
  git_push w (h ++ evs ++ [LogDebug "Pushing commit to remote." []; RepoInit dir])
    dir = inl e ->
  _commit w fuel gpt4 large true h =
  (Raises e,
   evs ++ [LogDebug "Pushing commit to remote." []; RepoInit dir; GitPush dir]) /\
  exists pre message, evs = pre ++ [GitCommit dir message].
Proof.
  intros H Hdir Hinit Hpush.
  unfold _commit, _push, bind, logging_debug, pure_outcome, Repo_init,
    repo_git_commit, repo_git_push, ret in H |- *.
  destruct (_commit_message w fuel gpt4 large h) as [[message| |] e1];
    try discriminate.
  rewrite Hdir in H |- *.
  destruct (repo_init w (((h ++ e1) ++ _) ++ [])) eqn:Hi; try discriminate.
  destruct (git_commit w _ dir message) as [|c] eqn:Hc; try discriminate.
  cbn in H. inversion H; subst; clear H.
  rewrite ?app_nil_r, <- ?app_assoc in *. cbn [app] in *.
  cbn. rewrite ?app_nil_r, <- ?app_assoc. cbn [app].
  rewrite Hinit. rewrite Hpush. cbn. split; [reflexivity|].
  exists (e1 ++ [LogDebug "Commit Message: %s" [message]; RepoInit dir]), message.
  now rewrite <- app_assoc.
Qed.

Lemma commit_push_failure_witness :
  _commit w_push_fails 5 false false false [] =
  (Returns {[ "response" := "[main 1a2b3c4] Add line" ]},
   [RepoInit "."; GitDiff "."; LogDebug "Diff: %s" [sample_diff];
    RequestGoal sample_diff goal true false;
    LogDebug "Commit Message: %s" ["Add line"];
    RepoInit "."; GitCommit "." "Add line"]) /\
  _commit w_push_fails 5 false false true [] =
  (Raises (CollaboratorError "GitCommandError" "remote rejected"),
   [RepoInit "."; GitDiff "."; LogDebug "Diff: %s" [sample_diff];
    RequestGoal sample_diff goal true false;
    LogDebug "Commit Message: %s" ["Add line"];
    RepoInit "."; GitCommit "." "Add line"]
   ++ [LogDebug "Pushing commit to remote." []; RepoInit "."; GitPush "."]) /\
  exists pre message,
    [RepoInit "."; GitDiff "."; LogDebug "Diff: %s" [sample_diff];
     RequestGoal sample_diff goal true false;
     LogDebug "Commit Message: %s" ["Add line"];
     RepoInit "."; GitCommit "." "Add line"]
    = pre ++ [GitCommit "." message].
Proof.
  split; [reflexivity|].
  apply (commit_push_failure w_push_fails 5 false false []
           {[ "response" := "[main 1a2b3c4] Add line" ]}); reflexivity.
Defined.

(** ** More on the Repository Locator *)

Section LocatorResults.

Variable w : World.

(** A result of the loop, read back on the walk. *)
Lemma find_git_dir_walk (fuel : nat) (path : string) :
  _find_git_dir w fuel path <> OutOfFuel ->
  exists k,
    k < fuel /\
    (forall i, i < k ->
       ancestor w i path <> "/" /\ contains_git w (ancestor w i path) = false) /\
    ((ancestor w k path <> "/" /\ contains_git w (ancestor w k path) = true /\
      _find_git_dir w fuel path = Returns (ancestor w k path)) \/
     (ancestor w k path = "/" /\ _find_git_dir w fuel path = Raises not_found)).
Proof.
  revert path. induction fuel as [|fuel IH]; intros path Hres;
    [now contradiction Hres|].
  rewrite find_git_dir_unfold in Hres |- *.
  destruct (String.eqb_spec path "/") as [Heq|Hne]; cbn [negb] in Hres |- *.
  - exists 0. split; [lia|]. split; [intros i Hi; lia|]. right. now split.
  - destruct (contains_git w path) eqn:Hg.
    + exists 0. split; [lia|]. split; [intros i Hi; lia|]. left. now repeat split.
    + destruct (IH (parent w path) Hres) as (k & Hk & Hbefore & Hend).
      exists (S k). split; [lia|]. split.
      * intros [|i] Hi; [now split|]. rewrite ancestor_S. apply Hbefore. lia.
      * rewrite ancestor_S. exact Hend.
Qed.

(** A raise means the walk reached the root. *)
Lemma find_git_dir_raised_at_root_aux (fuel : nat) (path : string) (e : exn) :
  _find_git_dir w fuel path = Raises e -> exists k, ancestor w k path = "/".
Proof.
  intros H.
  destruct (find_git_dir_walk fuel path) as (k & _ & _ & Hend);
    [rewrite H; discriminate|].
  exists k. destruct Hend as [(_ & _ & Hr)|(Hroot & _)]; [congruence|assumption].
Qed.

End LocatorResults.

(** X1.  Whatever [_find_git_dir] returns is a directory of the walk from the
    starting path: it contains [.git], it is not ["/"], and no directory
    examined before it contains [.git] or is ["/"]. *)
Theorem find_git_dir_returned_is_nearest (w : World) (fuel : nat)
  (path dir : string) :
  _find_git_dir w fuel path = Returns dir ->
  exists k,
    k < fuel /\ dir = ancestor w k path /\ dir <> "/" /\
    contains_git w dir = true /\
    forall i, i < k ->
      ancestor w i path <> "/" /\ contains_git w (ancestor w i path) = false.
Proof.
  intros H.
  destruct (find_git_dir_walk w fuel path) as (k & Hk & Hbefore & Hend);
    [rewrite H; discriminate|].
  exists k. destruct Hend as [(Hne & Hg & Hr)|(_ & Hr)]; [|congruence].
  assert (dir = ancestor w k path) by congruence. subst dir. auto.
Qed.

Lemma find_git_dir_returned_is_nearest_witness :
  _find_git_dir w_repo 5 "/home/u/proj/src/x" = Returns "/home/u/proj" /\
  exists k,
    k < 5 /\ "/home/u/proj" = ancestor w_repo k "/home/u/proj/src/x" /\
    "/home/u/proj" <> "/" /\
    contains_git w_repo "/home/u/proj" = true /\
    forall i, i < k ->
      ancestor w_repo i "/home/u/proj/src/x" <> "/" /\
      contains_git w_repo (ancestor w_repo i "/home/u/proj/src/x") = false.
Proof.
  split; [reflexivity|].
  apply (find_git_dir_returned_is_nearest w_repo 5 "/home/u/proj/src/x").
  reflexivity.
Defined.



(** ** Shape and length of the paths of the walk *)

Section WalkPaths.

Import posixpath.

#[local] Arguments String.append _ _ : simpl nomatch.

Variable w : World.

Hypothesis cwd_absolute : isabs (getcwd w) = true.
Hypothesis cwd_single : double_slash (getcwd w) = false.

Lemma sep_join_head (a : ascii) (c : string) (l : list string) :
  exists t, sep_join (String a c :: l) = String a t.
Proof. destruct l; [now exists c|]. eexists. reflexivity. Qed.

Lemma double_slash_rooted (cs : list string) :
  Forall (fun c => clean c = true) cs -> double_slash (rooted cs) = false.
Proof.
  intros H. destruct cs as [|c cs]; [reflexivity|]. inversion H; subst.
  destruct (clean_head c) as (a & c' & -> & Ha); [assumption|].
  destruct (sep_join_head a c' cs) as [t Ht].
  unfold rooted, double_slash, sep. rewrite Ht. cbn [String.append startswith].
  rewrite Ascii.eqb_sym in Ha. now rewrite Ha.
Qed.

(** After the first move to the parent every path of the walk is rooted. *)
Lemma ancestor_is_rooted (p : string) (j : nat) :
  double_slash p = false ->
  exists cs, Forall (fun c => clean c = true) cs /\ ancestor w (S j) p = rooted cs.
Proof.
  intros Hds. induction j as [|j (cs & Hcs & IH)].
  - exact (parent_is_rooted w cwd_absolute cwd_single p Hds).
  - change (ancestor w (S (S j)) p) with (parent w (ancestor w (S j) p)).
    rewrite IH.
    exact (parent_is_rooted w cwd_absolute cwd_single _ (double_slash_rooted cs Hcs)).
Qed.

Lemma append_length (a b : string) :
  String.length (a +:+ b) = String.length a + String.length b.
Proof. induction a as [|x a IH]; cbn; [reflexivity|now rewrite IH]. Qed.

Lemma split_length (s : string) : length (split s) <= S (String.length s).
Proof.
  induction s as [|c s IH]; cbn [split String.length length]; [lia|].
  destruct (Ascii.eqb c "/"); cbn [length]; [lia|].
  destruct (split s); cbn [length] in *; lia.
Qed.

Lemma removelast_length (l : list string) : length (removelast l) <= length l.
Proof.
  induction l as [|x l IH]; [cbn; lia|].
  destruct l; [cbn; lia|].
  change (removelast (x :: s :: l)) with (x :: removelast (s :: l)).
  cbn [length] in *. lia.
Qed.

Lemma norm_step_length (n : nat) (acc : list string) (c : string) :
  length (norm_step n acc c) <= S (length acc).
Proof.
  unfold norm_step.
  destruct (String.eqb c "" || String.eqb c curdir); [lia|].
  destruct (negb (String.eqb c pardir) || (Nat.eqb n 0 && is_nil acc)
            || (negb (is_nil acc) && String.eqb (List.last acc "") pardir)).
  - rewrite length_app. cbn. lia.
  - pose proof (removelast_length acc). destruct (negb (is_nil acc)); lia.
Qed.

Lemma fold_norm_step_length (n : nat) (l acc : list string) :
  length (fold_left (norm_step n) l acc) <= length acc + length l.
Proof.
  revert acc. induction l as [|c l IH]; intros acc; cbn [fold_left length]; [lia|].
  pose proof (IH (norm_step n acc c)). pose proof (norm_step_length n acc c). lia.
Qed.

Lemma join_length (a b : string) :
  String.length (join a b) <= String.length a + String.length b + 1.
Proof.
  unfold join. destruct (startswith b sep); [lia|].
  destruct (String.eqb a "" || endswith_sep a); rewrite !append_length;
    cbn; lia.
Qed.

Lemma normpath_rooted_fold (p : string) :
  isabs p = true -> double_slash p = false ->
  normpath p = rooted (fold_left (norm_step 1) (split p) []).
Proof.
  intros Habs Hds. unfold normpath.
  rewrite (initial_slashes_single p Habs Hds).
  destruct p as [|c p]; [discriminate|]. reflexivity.
Qed.

(** The parent has at most as many components as the joined path has
    characters. *)
Lemma parent_is_rooted_bound (p : string) :
  double_slash p = false ->
  exists cs,
    Forall (fun c => clean c = true) cs /\ parent w p = rooted cs /\
    length cs <= String.length (getcwd w) + String.length p + 5.
Proof.
  intros Hds.
  assert (Hx : String.length (join p pardir) <= String.length p + 3).
  { pose proof (join_length p pardir). cbn in *. lia. }
  unfold parent, abspath. destruct (isabs p) eqn:Hp.
  - destruct (join_keeps_root p pardir Hp Hds eq_refl) as [Ha Hd]. rewrite Ha.
    exists (fold_left (norm_step 1) (split (join p pardir)) []).
    split; [|split].
    + apply fold_norm_step_keeps_clean;
        [discriminate|constructor|apply split_all_no_sep].
    + now apply normpath_rooted_fold.
    + pose proof (fold_norm_step_length 1 (split (join p pardir)) []).
      pose proof (split_length (join p pardir)). cbn [length] in *. lia.
  - rewrite (join_relative p pardir Hp eq_refl).
    destruct (join_keeps_root (getcwd w) (join p pardir) cwd_absolute cwd_single
                (join_relative p pardir Hp eq_refl)) as [Ha Hd].
    exists (fold_left (norm_step 1) (split (join (getcwd w) (join p pardir))) []).
    split; [|split].
    + apply fold_norm_step_keeps_clean;
        [discriminate|constructor|apply split_all_no_sep].
    + now apply normpath_rooted_fold.
    + pose proof (fold_norm_step_length 1
                    (split (join (getcwd w) (join p pardir))) []).
      pose proof (split_length (join (getcwd w) (join p pardir))).
      pose proof (join_length (getcwd w) (join p pardir)).
      cbn [length] in *. lia.
Qed.

End WalkPaths.

(** X3.  With a working directory that is absolute and does not start with
    exactly two separators, and a starting path that does not start with
    exactly two separators, what [_find_git_dir] returns is either the
    starting path itself, unchanged, or an absolute normalised path: ["/"]
    followed by one or more components joined by ["/"], none of them empty,
    ["."] or [".."]. *)
Theorem find_git_dir_result_shape (w : World) (fuel : nat) (path dir : string) :
  posixpath.isabs (getcwd w) = true ->
  double_slash (getcwd w) = false ->
  double_slash path = false ->
  _find_git_dir w fuel path = Returns dir ->
  dir = path \/
  exists cs, cs <> [] /\ Forall (fun c => clean c = true) cs /\ dir = rooted cs.
Proof.
  intros Habs Hcwd Hpath H.
  destruct (find_git_dir_walk w fuel path) as (k & _ & _ & Hend);
    [rewrite H; discriminate|].
  destruct Hend as [(Hne & _ & Hr)|(_ & Hr)]; [|congruence].
  assert (dir = ancestor w k path) by congruence. subst dir.
  destruct k as [|k]; [now left|]. right.
  destruct (ancestor_is_rooted w Habs Hcwd path k Hpath) as (cs & Hcs & Heq).
  exists cs. repeat split; try assumption.
  intros ->. apply Hne. now rewrite Heq.
Qed.

Lemma find_git_dir_result_shape_witness :
  posixpath.isabs (getcwd w_repo) = true /\
  double_slash (getcwd w_repo) = false /\
  double_slash "src/x" = false /\
  _find_git_dir w_repo 5 "src/x" = Returns "/home/u/proj" /\
  ("/home/u/proj" = "src/x" \/
   exists cs, cs <> [] /\ Forall (fun c => clean c = true) cs /\
              "/home/u/proj" = rooted cs).
Proof.
  repeat (split; [reflexivity|]).
  apply (find_git_dir_result_shape w_repo 5 "src/x" "/home/u/proj"); reflexivity.
Defined.

(** X4.  Under the same conditions the loop of [_find_git_dir] ends within
    [len(cwd) + len(path) + 7] evaluations of its condition. *)
Theorem find_git_dir_iteration_bound (w : World) (fuel : nat) (path : string) :
  posixpath.isabs (getcwd w) = true ->
  double_slash (getcwd w) = false ->
  double_slash path = false ->
  String.length (getcwd w) + String.length path + 7 <= fuel ->
  _find_git_dir w fuel path <> OutOfFuel.
Proof.
  intros Habs Hcwd Hpath Hfuel.
  destruct (String.eqb_spec path "/") as [->|Hne].
  - destruct fuel as [|fuel]; [lia|]. discriminate.
  - destruct (parent_is_rooted_bound w Habs Hcwd path Hpath) as (cs & Hcs & Hp & Hlen).
    destruct (walk_rooted w (length cs) cs eq_refl Hcs) as [Hroot _].
    apply (find_git_dir_total w (S (length cs))); [|lia].
    now rewrite ancestor_S, Hp.
Qed.

Lemma find_git_dir_iteration_bound_witness :
  posixpath.isabs (getcwd w_no_repo) = true /\
  double_slash (getcwd w_no_repo) = false /\
  double_slash "a/b/../c" = false /\
  String.length (getcwd w_no_repo) + String.length "a/b/../c" + 7 <= 21 /\
  _find_git_dir w_no_repo 21 "a/b/../c" <> OutOfFuel.
Proof.
  split; [reflexivity|]. split; [reflexivity|]. split; [reflexivity|].
  split; [vm_compute; lia|].
  apply (find_git_dir_iteration_bound w_no_repo 21 "a/b/../c");
    [reflexivity|reflexivity|reflexivity|vm_compute; lia].
Defined.

(** ** Starting paths with exactly two leading separators *)

Section DoubleSlash.

Import posixpath.

#[local] Arguments String.append _ _ : simpl nomatch.

Lemma double_slash_inv (p : string) :
  double_slash p = true ->
  p = "//" \/ exists c t, p = String "/" (String "/" (String c t)) /\
                         Ascii.eqb "/" c = false.
Proof.
  unfold double_slash. intros H. apply andb_prop in H as [H2 H3].
  destruct p as [|c1 [|c2 p]]; cbn [startswith] in H2; try discriminate;
    [now destruct (Ascii.eqb "/" c1)|].
  apply andb_prop in H2 as [Hc1 H2]. apply andb_prop in H2 as [Hc2 _].
  apply Ascii.eqb_eq in Hc1, Hc2. subst c1 c2.
  destruct p as [|c3 t]; [now left|]. right. exists c3, t. split; [reflexivity|].
  cbn [startswith] in H3. rewrite !Ascii.eqb_refl in H3. cbn [andb] in H3.
  destruct (Ascii.eqb "/" c3); [discriminate|reflexivity].
Qed.

Lemma double_slash_not_root : double_slash "/" = false.
Proof. reflexivity. Qed.

(** Joining [".."] keeps exactly two leading separators. *)
Lemma join_pardir_double (p : string) :
  double_slash p = true ->
  isabs (join p pardir) = true /\ double_slash (join p pardir) = true.
Proof.
  intros H. destruct (double_slash_inv p H) as [->|(c & t & -> & Hc)];
    [split; reflexivity|].
  unfold join. change (startswith pardir sep) with false. cbv iota.
  destruct (String.eqb (String "/" (String "/" (String c t))) ""
            || endswith_sep (String "/" (String "/" (String c t))));
    unfold isabs, double_slash, sep; cbn [String.append startswith];
    rewrite !Ascii.eqb_refl, Hc; split; reflexivity.
Qed.

(** [normpath] keeps exactly two leading separators. *)
Lemma normpath_double (p : string) :
  double_slash p = true -> double_slash (normpath p) = true.
Proof.
  intros H.
  assert (Hinit : initial_slashes p = 2).
  { unfold initial_slashes. unfold double_slash in H. rewrite H.
    destruct (double_slash_inv p) as [->|(c & t & -> & _)]; try reflexivity.
    exact H. }
  assert (Hclean : Forall (fun c => clean c = true)
                     (fold_left (norm_step 2) (split p) [])).
  { apply fold_norm_step_keeps_clean;
      [discriminate|constructor|apply split_all_no_sep]. }
  unfold normpath. rewrite Hinit.
  replace (String.eqb p "") with false
    by (destruct (double_slash_inv p H) as [->|(c & t & -> & _)]; reflexivity).
  destruct (fold_left (norm_step 2) (split p) []) as [|c cs]; [reflexivity|].
  inversion Hclean; subst.
  destruct (clean_head c) as (a & c' & -> & Ha); [assumption|].
  assert (Hh : exists t, sep_join (String a c' :: cs) = String a t).
  { destruct cs; [now exists c'|]. eexists. reflexivity. }
  destruct Hh as [t ->]. cbn [Nat.eqb sep_times sep String.append String.eqb].
  unfold double_slash. cbn [startswith]. rewrite Ascii.eqb_sym in Ha.
  now rewrite !Ascii.eqb_refl, Ha.
Qed.

Variable w : World.

Lemma parent_double (p : string) :
  double_slash p = true -> double_slash (parent w p) = true.
Proof.
  intros H. unfold parent, abspath.
  destruct (join_pardir_double p H) as [Ha Hd]. rewrite Ha.
  now apply normpath_double.
Qed.

Lemma ancestor_double (p : string) (k : nat) :
  double_slash p = true -> double_slash (ancestor w k p) = true.
Proof.
  intros H. induction k as [|k IH]; [exact H|].
  change (ancestor w (S k) p) with (parent w (ancestor w k p)).
  now apply parent_double.
Qed.

Lemma ancestor_double_not_root (p : string) (k : nat) :
  double_slash p = true -> ancestor w k p <> "/".
Proof.
  intros H E. pose proof (ancestor_double p k H) as Hd.
  rewrite E in Hd. discriminate.
Qed.

End DoubleSlash.

(** X5.  From a starting path with exactly two leading separators the walk
    never reaches ["/"]: [_find_git_dir] never raises [FileNotFoundError],
    and when no directory of the walk contains [.git] its loop does not end,
    whatever the bound on its iterations. *)
Theorem find_git_dir_double_slash_never_raises (w : World) (path : string) :
  double_slash path = true ->
  (forall fuel e, _find_git_dir w fuel path <> Raises e) /\
  ((forall k, contains_git w (ancestor w k path) = false) ->
   forall fuel, _find_git_dir w fuel path = OutOfFuel).
Proof.
  intros Hd. split.
  - intros fuel e H.
    destruct (find_git_dir_raised_at_root_aux w fuel path e H) as (k & Hroot).
    exact (ancestor_double_not_root w path k Hd Hroot).
  - intros Hnone fuel.
    destruct (_find_git_dir w fuel path) as [dir|e|] eqn:H; [| |reflexivity].
    + destruct (find_git_dir_walk w fuel path) as (k & _ & _ & Hend);
        [rewrite H; discriminate|].
      destruct Hend as [(_ & Hg & _)|(Hroot & _)].
      * rewrite Hnone in Hg. discriminate.
      * now apply (ancestor_double_not_root w path k Hd) in Hroot.
    + destruct (find_git_dir_raised_at_root_aux w fuel path e H) as (k & Hroot).
      now apply (ancestor_double_not_root w path k Hd) in Hroot.
Qed.

Lemma find_git_dir_double_slash_never_raises_witness :
  double_slash "//srv/app" = true /\
  (forall k, contains_git w_no_repo (ancestor w_no_repo k "//srv/app") = false) /\
  (forall fuel e, _find_git_dir w_no_repo fuel "//srv/app" <> Raises e) /\
  (forall fuel, _find_git_dir w_no_repo fuel "//srv/app" = OutOfFuel).
Proof.
  split; [reflexivity|]. split; [intros k; reflexivity|].
  destruct (find_git_dir_double_slash_never_raises w_no_repo "//srv/app" eq_refl)
    as [Hraise Hloop].
  split; [exact Hraise|]. apply Hloop. intros k. reflexivity.
Defined.

(** ** Calls and their order in the pipeline *)

Ltac run_pipeline :=
  unfold _commit, _commit_message, _diff, _push, bind, pure_outcome,
    logging_debug, Repo_init, repo_git_diff, _request_goal, repo_git_commit,
    repo_git_push, ret, of_sum in *.

Ltac next_call :=
  match goal with
  | |- context [repo_init ?w ?h ?p] =>
      let H := fresh "Hinit" in destruct (repo_init w h p) eqn:H
  | |- context [git_diff ?w ?h ?r] =>
      let H := fresh "Hdiff" in destruct (git_diff w h r) eqn:H
  | |- context [request_goal ?w ?h ?c ?g ?f ?l] =>
      let H := fresh "Hreq" in destruct (request_goal w h c g f l) eqn:H
  | |- context [git_commit ?w ?h ?r ?m] =>
      let H := fresh "Hcommit" in destruct (git_commit w h r m) eqn:H
  | |- context [git_push ?w ?h ?r] =>
      let H := fresh "Hpush" in destruct (git_push w h r) eqn:H
  end.

(** Every run of [_commit] makes an initial part of one fixed sequence of
    calls. *)
Lemma commit_trace (w : World) (fuel : nat) (gpt4 large push : bool)
  (h : history) :
  exists dir diff message rest,
    commit_calls dir diff message gpt4 large
    ++ (if push then push_calls dir else [])
    = snd (_commit w fuel gpt4 large push h) ++ rest.
Proof.
  run_pipeline.
  destruct (_find_git_dir w fuel ".") as [dir| |];
    [|exists "", "", ""; eexists; reflexivity..].
  exists dir.
  destruct push; repeat (cbn [fst snd app]; next_call);
    cbn [fst snd app]; unfold commit_calls, push_calls;
    do 3 eexists; cbn [app]; reflexivity.
  Unshelve. all: exact "".
Qed.

(** X6.  In every run, returning or not, the calls of [_commit] are an
    initial part of one sequence: [Repo.init] and [git diff], the debug
    record of the diff, the completion request, the debug record of the
    message, [Repo.init] and [git commit], then, with [push] only, the debug
    record, [Repo.init] and [git push]; all on the same directory.  So no
    call is repeated or made out of this order. *)
Theorem commit_calls_in_order (w : World) (fuel : nat) (gpt4 large push : bool)
  (h : history) :
  exists dir diff message rest,
    [RepoInit dir; GitDiff dir; LogDebug "Diff: %s" [diff];
     RequestGoal diff goal (negb gpt4) large;
     LogDebug "Commit Message: %s" [message];
     RepoInit dir; GitCommit dir message]
    ++ (if push
        then [LogDebug "Pushing commit to remote." []; RepoInit dir; GitPush dir]
        else [])
    = snd (_commit w fuel gpt4 large push h) ++ rest.
Proof. exact (commit_trace w fuel gpt4 large push h). Qed.

(** An initial part of a list of calls without a push holds no push. *)
Lemma prefix_no_push (l evs rest : list event) :
  l = evs ++ rest -> forallb (fun ev => negb (is_push ev)) l = true ->
  forall ev, In ev evs -> is_push ev = false.
Proof.
  intros -> Hall ev Hin. rewrite forallb_app in Hall.
  apply andb_prop in Hall as [Hall _].
  rewrite forallb_forall in Hall. apply negb_true_iff. now apply Hall.
Qed.

(** X7.  Without the [push] flag [_commit] never calls [git push], in any
    run and whatever the collaborators answer. *)
Theorem commit_without_push_never_pushes (w : World) (fuel : nat)
  (gpt4 large : bool) (h : history) (ev : event) :
  In ev (snd (_commit w fuel gpt4 large false h)) -> is_push ev = false.
Proof.
  destruct (commit_trace w fuel gpt4 large false h)
    as (dir & diff & message & rest & Heq).
  apply (prefix_no_push _ _ rest Heq). reflexivity.
Qed.

Lemma commit_without_push_never_pushes_witness :
  In (GitCommit "." "Add line") (snd (_commit w_repo 5 false false false [])) /\
  is_push (GitCommit "." "Add line") = false.
Proof.
  split; [vm_compute; auto 10|].
  apply (commit_without_push_never_pushes w_repo 5 false false []).
  vm_compute. auto 10.
Defined.

Ltac tidy_histories :=
  repeat match goal with
         | H : context [?l ++ []] |- _ => rewrite (app_nil_r l) in H
         | H : context [(?a ++ ?b) ++ ?c] |- _ => rewrite <- (app_assoc a b c) in H
         end;
  cbn [app] in *.

(** A commit call is reached only through a located directory, a returned
    diff and a returned message. *)
Lemma commit_call_inv (w : World) (fuel : nat) (gpt4 large push : bool)
  (h : history) (P : string -> string -> Prop) :
  (forall dir diff message,
     _find_git_dir w fuel "." = Returns dir ->
     git_diff w (h ++ [RepoInit dir]) dir = inr diff ->
     request_goal w (h ++ [RepoInit dir; GitDiff dir; LogDebug "Diff: %s" [diff]])
       diff goal (negb gpt4) large = inr message ->
     P dir message) ->
  forall dir message,
    In (GitCommit dir message) (snd (_commit w fuel gpt4 large push h)) ->
    P dir message.
Proof.
  intros HP dir message. run_pipeline.
  destruct (_find_git_dir w fuel ".") as [d| |] eqn:Hfind; [|intros []..].
  destruct push; repeat (cbn [fst snd app]; next_call); cbn [fst snd app In];
    intros Hin;
    repeat match goal with
           | H : _ \/ _ |- _ => destruct H as [H|H]
           end;
    try discriminate; try contradiction;
    inversion Hin; subst; tidy_histories;
    eapply HP; try eassumption; reflexivity.
Qed.

(** X8.  Whenever [_commit] calls [git commit], it does so on the directory
    found by [_find_git_dir] and with exactly the string the completion
    facility returned for the diff that [git diff] returned, requested with
    the fixed goal and the flags [fast = not gpt4], [large = large]. *)
Theorem commit_uses_generated_message (w : World) (fuel : nat)
  (gpt4 large push : bool) (h : history) (dir message : string) :
  In (GitCommit dir message) (snd (_commit w fuel gpt4 large push h)) ->
  _find_git_dir w fuel "." = Returns dir /\
  exists diff,
    git_diff w (h ++ [RepoInit dir]) dir = inr diff /\
    request_goal w (h ++ [RepoInit dir; GitDiff dir; LogDebug "Diff: %s" [diff]])
      diff goal (negb gpt4) large = inr message.
Proof.
  revert dir message. apply commit_call_inv.
  intros dir diff message Hfind Hdiff Hreq. split; [exact Hfind|].
  exists diff. now split.
Qed.

Lemma commit_uses_generated_message_witness :
  In (GitCommit "." "Add line") (snd (_commit w_repo 5 false false true [])) /\
  _find_git_dir w_repo 5 "." = Returns "." /\
  exists diff,
    git_diff w_repo ([] ++ [RepoInit "."]) "." = inr diff /\
    request_goal w_repo
      ([] ++ [RepoInit "."; GitDiff "."; LogDebug "Diff: %s" [diff]])
      diff goal (negb false) false = inr "Add line".
Proof.
  split; [vm_compute; auto 10|].
  apply (commit_uses_generated_message w_repo 5 false false true [] "." "Add line").
  vm_compute. auto 10.
Defined.

(** [_commit_message] makes no commit and no push. *)
Lemma commit_message_no_write (w : World) (fuel : nat) (gpt4 large : bool)
  (h : history) (ev : event) :
  In ev (snd (_commit_message w fuel gpt4 large h)) -> is_write ev = false.
Proof.
  run_pipeline.
  destruct (_find_git_dir w fuel ".") as [d| |]; [|intros []..].
  repeat (cbn [fst snd app]; next_call); cbn [fst snd app In];
    intros Hin;
    repeat match goal with
           | H : _ \/ _ |- _ => destruct H as [H|H]
           end;
    try contradiction; now subst ev.
Qed.

(** X9.  When message generation raises, whether in locating the
    repository, in [Repo.init], in [git diff] or in the completion request,
    [_commit] raises the same error, makes no further call, and has made
    neither a commit nor a push. *)
Theorem commit_message_failure_stops (w : World) (fuel : nat)
  (gpt4 large push : bool) (h : history) (e : exn) (evs : list event) :
  _commit_message w fuel gpt4 large h = (Raises e, evs) ->
  _commit w fuel gpt4 large push h = (Raises e, evs) /\
  forall ev, In ev evs -> is_write ev = false.
Proof.
  intros H. split.
  - unfold _commit. now apply bind_raises.
  - intros ev Hin. apply (commit_message_no_write w fuel gpt4 large h).
    now rewrite H.
Qed.

Lemma commit_message_failure_stops_witness :
  _commit_message w_request_fails 5 false false [] =
  (Raises (CollaboratorError "RateLimitError" "too many requests"),
   [RepoInit "."; GitDiff "."; LogDebug "Diff: %s" [sample_diff];
    RequestGoal sample_diff goal true false]) /\
  _commit w_request_fails 5 false false true [] =
  (Raises (CollaboratorError "RateLimitError" "too many requests"),
   [RepoInit "."; GitDiff "."; LogDebug "Diff: %s" [sample_diff];
    RequestGoal sample_diff goal true false]) /\
  forall ev,
    In ev [RepoInit "."; GitDiff "."; LogDebug "Diff: %s" [sample_diff];
           RequestGoal sample_diff goal true false] ->
    is_write ev = false.
Proof.
  split; [reflexivity|].
  apply (commit_message_failure_stops w_request_fails 5 false false true []).
  reflexivity.
Defined.

(** X10.  When message generation returns and the commit operation then
    raises [e], [_commit] raises [e] with the failed commit as its last call:
    with the [push] flag too, no push is attempted. *)
Theorem commit_failure_skips_push (w : World) (fuel : nat)
  (gpt4 large push : bool) (h : history) (message dir : string)
  (e1 : list event) (e : exn) :
  _commit_message w fuel gpt4 large h = (Returns message, e1) ->
  _find_git_dir w fuel "." = Returns dir ->
  repo_init w (h ++ e1 ++ [LogDebug "Commit Message: %s" [message]]) dir = None ->
  git_commit w (h ++ e1 ++ [LogDebug "Commit Message: %s" [message]; RepoInit dir])
    dir message = inl e ->
  _commit w fuel gpt4 large push h =
  (Raises e,
   e1 ++ [LogDebug "Commit Message: %s" [message]; RepoInit dir;
          GitCommit dir message]).
Proof.
  intros Hmsg Hfind Hinit Hcommit.
  unfold _commit. rewrite (bind_run _ _ _ _ _ Hmsg).
  unfold bind, logging_debug, pure_outcome, Repo_init, repo_git_commit.
  rewrite Hfind. cbn [fst snd].
  rewrite !app_nil_r, <- !app_assoc. cbn [app].
  rewrite Hinit. rewrite <- !app_assoc. cbn [app]. rewrite Hcommit. reflexivity.
Qed.

Lemma commit_failure_skips_push_witness :
  _commit_message w_commit_fails 5 false false [] =
  (Returns "Update",
   [RepoInit "."; GitDiff "."; LogDebug "Diff: %s" [""];
    RequestGoal "" goal true false]) /\
  _find_git_dir w_commit_fails 5 "." = Returns "." /\
  _commit w_commit_fails 5 false false true [] =
  (Raises (CollaboratorError "GitCommandError" "nothing to commit"),
   [RepoInit "."; GitDiff "."; LogDebug "Diff: %s" [""];
    RequestGoal "" goal true false]
   ++ [LogDebug "Commit Message: %s" ["Update"]; RepoInit ".";
       GitCommit "." "Update"]).
Proof.
  split; [reflexivity|]. split; [reflexivity|].
  apply (commit_failure_skips_push w_commit_fails 5 false false true []
           "Update" "."); reflexivity.
Defined.

(** X11.  Every call [_diff] makes is [Repo.init] or [git diff] on the
    directory found by [_find_git_dir]; when it returns, its two calls are
    these, in this order, and its result is the string [git diff] returned. *)
Theorem diff_reads_located_repo (w : World) (fuel : nat) (h : history) :
  (forall ev, In ev (snd (_diff w fuel h)) ->
     exists dir, _find_git_dir w fuel "." = Returns dir /\
                 (ev = RepoInit dir \/ ev = GitDiff dir)) /\
  (forall diff evs, _diff w fuel h = (Returns diff, evs) ->
     exists dir, _find_git_dir w fuel "." = Returns dir /\
                 evs = [RepoInit dir; GitDiff dir] /\
                 git_diff w (h ++ [RepoInit dir]) dir = inr diff).
Proof.
  run_pipeline.
  destruct (_find_git_dir w fuel ".") as [d| |];
    [|split; [intros ev []|discriminate]..].
  rewrite app_nil_r. cbn [fst snd app].
  destruct (repo_init w h d); [split; [|discriminate]|].
  - intros ev [<-|[]]. exists d. auto.
  - destruct (git_diff w (h ++ [RepoInit d]) d) as [e|s] eqn:Hd; cbn [fst snd app];
      (split; [intros ev [<-|[<-|[]]]; exists d; auto|]); [discriminate|].
    intros diff evs H. inversion H; subst. exists d. auto.
Qed.

Lemma diff_reads_located_repo_witness :
  (In (GitDiff ".") (snd (_diff w_repo 5 [])) /\
   _diff w_repo 5 [] = (Returns sample_diff, [RepoInit "."; GitDiff "."])) /\
  (exists dir, _find_git_dir w_repo 5 "." = Returns dir /\
               (GitDiff "." = RepoInit dir \/ GitDiff "." = GitDiff dir)) /\
  (exists dir, _find_git_dir w_repo 5 "." = Returns dir /\
               [RepoInit "."; GitDiff "."] = [RepoInit dir; GitDiff dir] /\
               git_diff w_repo ([] ++ [RepoInit dir]) dir = inr sample_diff).
Proof.
  split; [split; [vm_compute; auto|reflexivity]|]. split.
  - apply (proj1 (diff_reads_located_repo w_repo 5 [])). vm_compute. auto.
  - apply (proj2 (diff_reads_located_repo w_repo 5 [])). reflexivity.
Defined.

(** X12.  Every call [_push] makes is its debug record, or [Repo.init] or
    [git push] on the directory found by [_find_git_dir]: it never commits,
    diffs or requests a completion. *)
Theorem push_calls_located_repo (w : World) (fuel : nat) (h : history)
  (ev : event) :
  In ev (snd (_push w fuel h)) ->
  ev = LogDebug "Pushing commit to remote." [] \/
  exists dir, _find_git_dir w fuel "." = Returns dir /\
              (ev = RepoInit dir \/ ev = GitPush dir).
Proof.
  run_pipeline.
  destruct (_find_git_dir w fuel ".") as [d| |]; cbn [fst snd app];
    [|intros [<-|[]]; now left..].
  repeat (cbn [fst snd app]; next_call); cbn [fst snd app In];
    intros Hin;
    repeat match goal with
           | H : _ \/ _ |- _ => destruct H as [H|H]
           end;
    try contradiction; subst ev; eauto.
Qed.

Lemma push_calls_located_repo_witness :
  In (GitPush ".") (snd (_push w_repo 5 [])) /\
  (GitPush "." = LogDebug "Pushing commit to remote." [] \/
   exists dir, _find_git_dir w_repo 5 "." = Returns dir /\
               (GitPush "." = RepoInit dir \/ GitPush "." = GitPush dir)).
Proof.
  split; [vm_compute; auto|].
  apply (push_calls_located_repo w_repo 5 []). vm_compute. auto.
Defined.

(** X13.  When no repository is found, [_push] raises the
    [FileNotFoundError] of [_find_git_dir] after its debug record only:
    neither [Repo.init] nor [git push] is called. *)
Theorem push_locator_failure (w : World) (fuel : nat) (h : history) (e : exn) :
  _find_git_dir w fuel "." = Raises e ->
  e = FileNotFoundError ".git directory not found" /\
  _push w fuel h = (Raises e, [LogDebug "Pushing commit to remote." []]).
Proof.
  intros Hf. split; [exact (find_git_dir_raises w fuel "." e Hf)|].
  run_pipeline. now rewrite Hf.
Qed.

Lemma push_locator_failure_witness :
  _find_git_dir w_no_repo 5 "." = Raises not_found /\
  not_found = FileNotFoundError ".git directory not found" /\
  _push w_no_repo 5 [] = (Raises not_found, [LogDebug "Pushing commit to remote." []]).
Proof.
  split; [reflexivity|].
  apply (push_locator_failure w_no_repo 5 [] not_found). reflexivity.
Defined.

(** X14.  When [_find_git_dir] returns and no collaborator raises,
    [_commit] returns a mapping with the single key ["response"], after 7
    calls without [push] and 10 calls with it. *)
Theorem commit_returns_when_nothing_raises (w : World) (fuel : nat)
  (gpt4 large push : bool) (h : history) (dir : string) :
  _find_git_dir w fuel "." = Returns dir ->
  (forall h' p, repo_init w h' p = None) ->
  (forall h' r, exists s, git_diff w h' r = inr s) ->
  (forall h' c g f l, exists s, request_goal w h' c g f l = inr s) ->
  (forall h' r m, exists s, git_commit w h' r m = inr s) ->
  (forall h' r, exists s, git_push w h' r = inr s) ->
  exists v evs,
    _commit w fuel gpt4 large push h = (Returns {[ "response" := v ]}, evs) /\
    length evs = if push then 10 else 7.
Proof.
  intros Hfind Hinit Hdiff Hreq Hcommit Hpush.
  run_pipeline. rewrite Hfind.
  destruct push;
    repeat (cbn [fst snd app];
            match goal with
            | |- context [repo_init w ?a ?b] => rewrite (Hinit a b)
            | |- context [git_diff w ?a ?b] =>
                let s := fresh "s" in destruct (Hdiff a b) as [s ->]
            | |- context [request_goal w ?a ?b ?c ?d ?e] =>
                let s := fresh "s" in destruct (Hreq a b c d e) as [s ->]
            | |- context [git_commit w ?a ?b ?c] =>
                let s := fresh "s" in destruct (Hcommit a b c) as [s ->]
            | |- context [git_push w ?a ?b] =>
                let s := fresh "s" in destruct (Hpush a b) as [s ->]
            end);
    cbn [fst snd app]; do 2 eexists; split; reflexivity.
Qed.

Lemma commit_returns_when_nothing_raises_witness :
  _find_git_dir w_repo 5 "." = Returns "." /\
  exists v evs,
    _commit w_repo 5 true false true [] = (Returns {[ "response" := v ]}, evs) /\
    length evs = 10.
Proof.
  split; [reflexivity|].
  apply (commit_returns_when_nothing_raises w_repo 5 true false true [] ".");
    try reflexivity; intros; eexists; reflexivity.
Defined.

(** X15.  The directory [_find_git_dir] returns is a fixed point of the
    search: started from it, [_find_git_dir] returns it again at the first
    iteration. *)
Theorem find_git_dir_idempotent (w : World) (fuel fuel' : nat)
  (path dir : string) :
  _find_git_dir w fuel path = Returns dir ->
  _find_git_dir w (S fuel') dir = Returns dir.
Proof.
  intros H. destruct (find_git_dir_returns w fuel path dir H) as [Hg Hne].
  rewrite find_git_dir_unfold. apply String.eqb_neq in Hne.
  now rewrite Hne, Hg.
Qed.

Lemma find_git_dir_idempotent_witness :
  _find_git_dir w_repo 5 "/home/u/proj/src/x" = Returns "/home/u/proj" /\
  _find_git_dir w_repo 1 "/home/u/proj" = Returns "/home/u/proj".
Proof.
  split; [reflexivity|].
  apply (find_git_dir_idempotent w_repo 5 0 "/home/u/proj/src/x"). reflexivity.
Defined.
